(** * wirecloud-keycloak: the Keycloak OpenID Connect backend

    A shallow embedding of [wirecloud/keycloak/social_auth_backend.py]
    and the properties of its specification.

    Conventions of the embedding.
    - A Python [str] is a [string]; each character stands for one code
      point in the range U+0000..U+00FF (Latin-1), on which [str.strip]
      and [str.lower] are modelled exactly.
    - Values that arrive as decoded JSON (token claims, the userinfo
      response, the extra-data of a linked identity) are values of
      [json]; a JSON object keeps its entries in insertion order, as a
      Python dict does.
    - A Python exception is a constructor of [pyerr]; code that may raise
      returns a [result].
    - The persistence layer (group table, the user's memberships) and the
      session object are explicit states. *)

From Stdlib Require Import Ascii String List ZArith Lia.
From stdpp Require Import base option list strings gmap sets.

Local Open Scope string_scope.
Set Warnings "-register-all".

(** ** Python strings *)

Module PyStr.

(** [str.isspace] on one code point below 256: the characters with
    bidirectional class WS, B or S, or category Zs. *)
Definition is_space (c : ascii) : bool :=
  let n := nat_of_ascii c in
  (((9 <=? n) && (n <=? 13)) || ((28 <=? n) && (n <=? 32))
   || (n =? 133) || (n =? 160))%nat.

(** [str.lower] on one code point below 256: A-Z and the Latin-1
    capitals U+00C0..U+00DE, the multiplication sign U+00D7 apart. *)
Definition lower_char (c : ascii) : ascii :=
  let n := nat_of_ascii c in
  if (((65 <=? n) && (n <=? 90))
      || ((192 <=? n) && (n <=? 222) && negb (n =? 215)))%nat
  then ascii_of_nat (n + 32) else c.

Fixpoint lstrip_chars (l : list ascii) : list ascii :=
  match l with
  | c :: l' => if is_space c then lstrip_chars l' else l
  | [] => []
  end.

Definition rstrip_chars (l : list ascii) : list ascii :=
  rev (lstrip_chars (rev l)).

(** [s.strip()] *)
Definition strip (s : string) : string :=
  string_of_list_ascii
    (rstrip_chars (lstrip_chars (list_ascii_of_string s))).

(** [s.lower()] *)
Definition lower (s : string) : string :=
  string_of_list_ascii (map lower_char (list_ascii_of_string s)).

(** Iterating a [str] yields its characters, each a [str] of length 1. *)
Definition chars (s : string) : list string :=
  map (fun c => String c EmptyString) (list_ascii_of_string s).

End PyStr.

(** [role.strip().lower()], the normal form of a role name (lines 97, 98
    and 129 of the source). *)
Definition normalize (role : string) : string :=
  PyStr.lower (PyStr.strip role).

(** ** Values and exceptions *)

Inductive json : Type :=
| JNull
| JBool (b : bool)
| JNum (z : Z)
| JStr (s : string)
| JArr (l : list json)
| JObj (kvs : list (string * json)).

(** A Python dict with string keys, in insertion order. *)
Abbreviation pydict := (list (string * json)).

Inductive pyerr : Type :=
| AttributeError
| TypeError
| KeyError
| MultipleObjectsReturned
| ProviderError.

Inductive result (A : Type) : Type :=
| Ok (a : A)
| Raise (e : pyerr).
Arguments Ok {A} a.
Arguments Raise {A} e.

#[global] Instance result_ret : MRet result := fun _ a => Ok a.
#[global] Instance result_bind : MBind result := fun _ _ f m =>
  match m with
  | Ok a => f a
  | Raise e => Raise e
  end.

Module Py.

(** [d.get(k)] on a dict, as an option. *)
Fixpoint lookup (k : string) (d : pydict) : option json :=
  match d with
  | [] => None
  | (k', v) :: d' => if decide (k' = k) then Some v else lookup k d'
  end.

(** [d.get(k, default)] on a dict. *)
Definition dict_get (d : pydict) (k : string) (default : json) : json :=
  match lookup k d with
  | Some v => v
  | None => default
  end.

(** [x.get(k, default)] on any value: only a dict has a [get]. *)
Definition get (x : json) (k : string) (default : json) : result json :=
  match x with
  | JObj d => Ok (dict_get d k default)
  | _ => Raise AttributeError
  end.

(** The truth value of [x]. *)
Definition truthy (x : json) : bool :=
  match x with
  | JNull => false
  | JBool b => b
  | JNum z => negb (z =? 0)%Z
  | JStr s => negb (String.eqb s "")
  | JArr l => match l with [] => false | _ => true end
  | JObj d => match d with [] => false | _ => true end
  end.

(** [x or y] *)
Definition or (x y : json) : json := if truthy x then x else y.

(** [for v in x]: the items a value yields, [TypeError] when it is not
    iterable. *)
Definition iter (x : json) : result (list json) :=
  match x with
  | JArr l => Ok l
  | JStr s => Ok (map JStr (PyStr.chars s))
  | JObj d => Ok (map (fun kv => JStr (fst kv)) d)
  | _ => Raise TypeError
  end.

(** [role.strip().lower()] on any value: only a [str] has [strip]. *)
Definition strip_lower (role : json) : result string :=
  match role with
  | JStr s => Ok (normalize s)
  | _ => Raise AttributeError
  end.

End Py.

(** ** The backend: [KeycloakOpenIdConnect] *)

(** The settings the backend reads:
    [SOCIAL_AUTH_KEYCLOAK_OIDC_GLOBAL_ROLE], the client id returned by
    [get_key_and_secret], the [USERNAME_KEY] setting (default
    [preferred_username]) and the class attribute [END_SESSION_URL]. *)
Record Settings : Type := {
  global_role : bool;
  client_id : string;
  username_key : string;
  END_SESSION_URL : string
}.

(** The dict [get_user_details] returns. *)
Record UserDetails : Type := {
  username : json;
  email : json;
  fullname : json;
  first_name : json;
  last_name : json;
  is_superuser : bool;
  is_staff : bool;
  roles : list string
}.

(** Lines 91-95: the role list read from the id token. *)
Definition select_roles (cfg : Settings) (id_token : pydict) : result json :=
  if global_role cfg then
    Py.get (Py.dict_get id_token "realm_access" (JObj [])) "roles" (JArr [])
  else
    entry ← Py.get (Py.dict_get id_token "resource_access" (JObj []))
                   (client_id cfg) (JObj []);
    Py.get entry "roles" (JArr []).

(** Line 97: [any(role.strip().lower() == "admin" for role in roles)];
    [any] stops at the first role that matches. *)
Fixpoint any_admin (roles : list json) : result bool :=
  match roles with
  | [] => Ok false
  | role :: rest =>
      name ← Py.strip_lower role;
      if bool_decide (name = "admin") then Ok true else any_admin rest
  end.

(** Line 98: [[role.strip().lower() for role in roles]]. *)
Fixpoint group_roles (roles : list json) : result (list string) :=
  match roles with
  | [] => Ok []
  | role :: rest =>
      name ← Py.strip_lower role;
      names ← group_roles rest;
      Ok (name :: names)
  end.

(** Lines 85-110. *)
Definition get_user_details (cfg : Settings) (id_token response : pydict)
  : result UserDetails :=
  roles ← select_roles cfg id_token;
  items ← Py.iter roles;
  superuser ← any_admin items;
  names ← group_roles items;
  Ok {| username := Py.dict_get response (username_key cfg) JNull;
        email := Py.or (Py.dict_get response "email" JNull) (JStr "");
        fullname := Py.or (Py.dict_get response "name" JNull) (JStr "");
        first_name := Py.or (Py.dict_get response "given_name" JNull) (JStr "");
        last_name := Py.or (Py.dict_get response "family_name" JNull) (JStr "");
        is_superuser := superuser;
        is_staff := superuser;
        roles := names |}.

(** Lines 63-65: [self.END_SESSION_URL or
    self.oidc_config().get('end_session_endpoint')].  [oidc_config] is the
    provider's discovery document as the library fetches it, or the
    exception that the fetch raises; it is only evaluated when the
    override is empty. [JNull] is Python's [None]. *)
Definition end_session_url (cfg : Settings) (oidc_config : result pydict)
  : result json :=
  if negb (String.eqb (END_SESSION_URL cfg) "") then
    Ok (JStr (END_SESSION_URL cfg))
  else
    doc ← oidc_config;
    Ok (Py.dict_get doc "end_session_endpoint" JNull).

(** A [str] or [None] as a value. *)
Definition key_value (key : option string) : json :=
  match key with
  | Some k => JStr k
  | None => JNull
  end.

(** Lines 80-83. [parent] is what the parent class's
    [auth_extra_arguments] returned, a dict or [None]; [language] is what
    [get_language()] returns, a language code or [None]. [parent or {}]
    is the parent's dict unless it is [None] or empty. *)
Definition auth_extra_arguments (parent : option (gmap string json))
    (language : option string) : gmap string json :=
  <["kc_locale" := key_value language]> (default ∅ parent).

(** Lines 112-115. The three library functions it calls are taken as
    they are: [find_valid_key] of the parent class (the key it returns, or
    [None]), [jwk.construct] followed by [to_pem], and [jwt.decode] with
    its token, key, algorithm and options. What the options mean is the
    library's business; the backend passes the one entry
    [{"verify": False}]. *)
Section ParseIncomingData.

Variable find_valid_key : string → json.
Variable construct_pem : json → result string.
Variable jwt_decode : string → string → json → pydict → result pydict.

(** [key['alg']] *)
Definition key_alg (key : json) : result json :=
  match key with
  | JObj d =>
      match Py.lookup "alg" d with
      | Some alg => Ok alg
      | None => Raise KeyError
      end
  | _ => Raise TypeError
  end.

Definition parse_incomming_data (data : string) : result pydict :=
  let key := find_valid_key data in
  pem ← construct_pem key;
  alg ← key_alg key;
  jwt_decode data pem alg [("verify", JBool false)].

End ParseIncomingData.

(** ** The session object

    [self.strategy.request.session] is the framework's session object of
    the current request. The backend calls its [cycle_key], reads its
    [session_key], and assigns two of its attributes, [cycle_key] and
    [flush]; the state below holds what these touch: the keys that exist
    in the session storage, the key and the data of this object, and
    which function each of the two attributes is bound to. *)

Inductive cycle_key_impl : Type :=
| CycleKeyDefault   (* the framework's method *)
| CycleKeyNoop.     (* [lambda: None], line 73 *)

Inductive flush_impl : Type :=
| FlushDefault      (* the framework's method *)
| FlushIsClear.     (* [session.clear], line 74 *)

Record Session : Type := {
  storage : gset string;
  session_key : option string;
  session_data : gmap string json;
  cycle_key_attr : cycle_key_impl;
  flush_attr : flush_impl
}.

(** The session object the framework builds at the start of a request
    from the key in the cookie: both attributes are the class's methods. *)
Definition SessionStore (keys : gset string) (key : option string)
    (data : gmap string json) : Session :=
  {| storage := keys; session_key := key; session_data := data;
     cycle_key_attr := CycleKeyDefault; flush_attr := FlushDefault |}.

Section SessionObject.

(** The framework's [_get_new_session_key]: it draws random keys until
    one does not exist in the storage. *)
Variable new_session_key : gset string → string.

(** The framework's [SessionBase.cycle_key]: create a new key and save
    the session under it, keep the data, delete the old key. *)
Definition default_cycle_key (s : Session) : Session :=
  let key := new_session_key (storage s) in
  let keys := {[key]} ∪ storage s in
  {| storage := match session_key s with
                | Some old => keys ∖ {[old]}
                | None => keys
                end;
     session_key := Some key;
     session_data := session_data s;
     cycle_key_attr := cycle_key_attr s;
     flush_attr := flush_attr s |}.

(** The framework's [SessionBase.clear]: empty the data. *)
Definition clear (s : Session) : Session :=
  {| storage := storage s; session_key := session_key s;
     session_data := ∅;
     cycle_key_attr := cycle_key_attr s; flush_attr := flush_attr s |}.

(** The framework's [SessionBase.flush]: clear the data, delete the
    session from the storage and forget the key. *)
Definition default_flush (s : Session) : Session :=
  {| storage := match session_key s with
                | Some old => storage s ∖ {[old]}
                | None => storage s
                end;
     session_key := None;
     session_data := ∅;
     cycle_key_attr := cycle_key_attr s; flush_attr := flush_attr s |}.

(** [session.cycle_key()]: the call goes to what the attribute holds. *)
Definition cycle_key (s : Session) : Session :=
  match cycle_key_attr s with
  | CycleKeyDefault => default_cycle_key s
  | CycleKeyNoop => s
  end.

(** [session.flush()] *)
Definition flush (s : Session) : Session :=
  match flush_attr s with
  | FlushDefault => default_flush s
  | FlushIsClear => clear s
  end.

(** Lines 67-78. [params] is what the parent class's
    [auth_complete_params] returned. *)
Definition auth_complete_params (params : gmap string json) (s : Session)
  : gmap string json * Session :=
  let s1 := cycle_key s in
  let s2 := {| storage := storage s1; session_key := session_key s1;
               session_data := session_data s1;
               cycle_key_attr := CycleKeyNoop;
               flush_attr := FlushIsClear |} in
  (<["client_session_state" := key_value (session_key s2)]> params, s2).

(** What the rest of a request may do with the session object: the
    framework's calls on it (the login that follows a completed
    authentication calls [cycle_key] or [flush]; views read and write
    items) and a further call of [auth_complete_params]. *)
Inductive request_step : Type :=
| CallCycleKey
| CallFlush
| CallClear
| SetItem (k : string) (v : json)
| CallAuthCompleteParams (params : gmap string json).

Definition step (s : Session) (c : request_step) : Session :=
  match c with
  | CallCycleKey => cycle_key s
  | CallFlush => flush s
  | CallClear => clear s
  | SetItem k v =>
      {| storage := storage s; session_key := session_key s;
         session_data := <[k := v]> (session_data s);
         cycle_key_attr := cycle_key_attr s; flush_attr := flush_attr s |}
  | CallAuthCompleteParams params => snd (auth_complete_params params s)
  end.

Definition run (s : Session) (cs : list request_step) : Session :=
  foldl step s cs.

End SessionObject.

(** A session object whose two attributes have been replaced. *)
Definition locked (s : Session) : Prop :=
  cycle_key_attr s = CycleKeyNoop ∧ flush_attr s = FlushIsClear.

(** The key of the session object, when it has one, exists in the
    storage. *)
Definition key_stored (s : Session) : Prop :=
  ∀ k, session_key s = Some k → k ∈ storage s.

(** ** The persistence layer and the role synchronizer *)

(** A row of the group table. *)
Record Group : Type := {
  group_id : nat;
  group_name : string
}.

(** A linked external identity of a user. *)
Record UserSocialAuth : Type := {
  extra_data : pydict
}.

(** The user being saved: [instance.social_auth], in the order in which
    [all()] returns the rows. *)
Record User : Type := {
  social_auth : list UserSocialAuth
}.

(** The database as the synchronizer sees it: the group table and the
    group ids in [instance.groups]. *)
Record DB : Type := {
  auth_group : list Group;
  user_groups : gset nat
}.

(** The key of the next inserted row: larger than every key in use. *)
Definition next_id (table : list Group) : nat :=
  S (max_list (group_id <$> table)).

(** Modelled from the spec: the group model and its manager live in
    [wirecloud.keycloak.utils] and in the framework; this is
    [objects.get_or_create(name=name)] of an external store with
    create/find/get-or-create semantics: the one row of that name when
    there is one, a new row when there is none, and
    [MultipleObjectsReturned] when several rows have the name. The
    boolean is [created]. *)
Definition get_or_create (name : string) (db : DB) : result (Group * bool * DB) :=
  match filter (λ g, group_name g = name) (auth_group db) with
  | [] =>
      let g := {| group_id := next_id (auth_group db); group_name := name |} in
      Ok (g, true, {| auth_group := auth_group db ++ [g];
                      user_groups := user_groups db |})
  | [g] => Ok (g, false, db)
  | _ => Raise MultipleObjectsReturned
  end.

(** [instance.groups.clear()] *)
Definition groups_clear (db : DB) : DB :=
  {| auth_group := auth_group db; user_groups := ∅ |}.

(** [instance.groups.add(group)] *)
Definition groups_add (g : Group) (db : DB) : DB :=
  {| auth_group := auth_group db;
     user_groups := {[group_id g]} ∪ user_groups db |}.

(** Lines 127-130, the body of the loop over the items of
    [social.extra_data['roles']]. *)
Fixpoint add_roles (items : list json) (db : DB) : result DB :=
  match items with
  | [] => Ok db
  | role :: rest =>
      name ← Py.strip_lower role;
      '(role_group, created, db1) ← get_or_create name db;
      add_roles rest (groups_add role_group db1)
  end.

(** Lines 118-130. *)
Definition add_user_groups (instance : User) (db : DB) : result DB :=
  match social_auth instance with
  | [] => Ok db
  | social :: _ =>
      let db := groups_clear db in
      match Py.lookup "roles" (extra_data social) with
      | None => Ok db
      | Some roles =>
          items ← Py.iter roles;
          add_roles items db
      end
  end.

(** The names of the groups the user is in. *)
Definition group_names (db : DB) : gset string :=
  list_to_set
    (group_name <$> filter (λ g, group_id g ∈ user_groups db) (auth_group db)).

(** The table's constraints: the primary key and the unique name. *)
Definition table_ok (table : list Group) : Prop :=
  NoDup (group_id <$> table) ∧ NoDup (group_name <$> table).

(** The ids in [instance.groups] are ids of rows. *)
Definition groups_exist (db : DB) : Prop :=
  ∀ i, i ∈ user_groups db → ∃ g, g ∈ auth_group db ∧ group_id g = i.

(** The ids of the rows whose name is in [names]. *)
Definition ids_named (names : gset string) (table : list Group) : gset nat :=
  list_to_set (group_id <$> filter (λ g, group_name g ∈ names) table).

(** Sample inputs. *)
Module Samples.

Definition realm_settings : Settings :=
  {| global_role := true; client_id := "app1";
     username_key := "preferred_username"; END_SESSION_URL := "" |}.

Definition client_settings : Settings :=
  {| global_role := false; client_id := "app1";
     username_key := "preferred_username"; END_SESSION_URL := "" |}.

Definition realm_token : pydict :=
  [("sub", JStr "42");
   ("realm_access", JObj [("roles", JArr [JStr "admin"; JStr "editor"])])].

Definition client_token : pydict :=
  [("resource_access",
    JObj [("app1", JObj [("roles", JArr [JStr "viewer"])])])].

Definition mixed_token : pydict :=
  [("realm_access", JObj [("roles", JArr [JStr "viewer"; JStr "  Admin "])])].

Definition userinfo : pydict :=
  [("name", JStr "Ada Lovelace"); ("given_name", JStr "Ada")].

Definition override_settings : Settings :=
  {| global_role := false; client_id := "app1";
     username_key := "preferred_username";
     END_SESSION_URL := "https://idp.example/logout" |}.

Definition discovery_doc : pydict :=
  [("issuer", JStr "https://idp.example/realms/corp");
   ("end_session_endpoint", JStr "https://idp.example/realms/corp/logout")].

(** A key generator: some key that is not in the storage. *)
Definition new_key (keys : gset string) : string := fresh keys.

(** The session object of a request whose cookie holds a stored key. *)
Definition session0 : Session :=
  SessionStore {["k0"]} (Some "k0") {["state" := JStr "xyz"]}.

Definition base_params : gmap string json :=
  {["grant_type" := JStr "authorization_code"]}.

(** A group table with a stale membership, and a user whose first
    linked identity carries three roles, two of them the same group. *)
Definition groups0 : DB :=
  {| auth_group := [ {| group_id := 3; group_name := "old" |};
                     {| group_id := 7; group_name := "admin" |} ];
     user_groups := {[3]} |}.

Definition roles0 : list string := [" Admin"; "Editor "; "admin"].

Definition social0 : UserSocialAuth :=
  {| extra_data := [("id", JStr "42"); ("roles", JArr (JStr <$> roles0))] |}.

Definition user0 : User := {| social_auth := [social0] |}.

(** Identities whose stored roles are not a list of strings. *)
Definition null_roles : UserSocialAuth :=
  {| extra_data := [("roles", JNull)] |}.

Definition mixed_roles : UserSocialAuth :=
  {| extra_data := [("roles", JArr [JStr "admin"; JNum 3])] |}.

(** The same groups as [roles0], spelled differently. *)
Definition roles1 : list string := ["EDITOR"; "admin "].

Definition social1 : UserSocialAuth :=
  {| extra_data := [("roles", JArr (JStr <$> roles1))] |}.

Definition user1 : User := {| social_auth := [social1] |}.

Definition no_groups : DB := {| auth_group := []; user_groups := ∅ |}.

(** A login with the roles [roles0] in the token, and the identity that
    stores the roles [get_user_details] returns for it. *)
Definition roles0_token : pydict :=
  [("realm_access", JObj [("roles", JArr (JStr <$> roles0))])].

Definition social2 : UserSocialAuth :=
  {| extra_data :=
       [("roles", JArr (JStr <$> ["admin"; "editor"; "admin"]))] |}.

Definition user2 : User := {| social_auth := [social2] |}.

End Samples.

(** * Properties *)

(** ** User details *)

Section UserDetailsFacts.

Implicit Types (cfg : Settings) (rs : list string).

Lemma any_admin_strings rs :
  any_admin (JStr <$> rs)
  = Ok (existsb (λ r, bool_decide (normalize r = "admin")) rs).
Proof.
  induction rs as [|r rs IH]; [done|].
  cbn. destruct (bool_decide (normalize r = "admin")); [done|].
  exact IH.
Qed.

Lemma group_roles_strings rs :
  group_roles (JStr <$> rs) = Ok (normalize <$> rs).
Proof.
  induction rs as [|r rs IH]; [done|].
  cbn. fold (group_roles (JStr <$> rs)). by rewrite IH.
Qed.

Lemma existsb_admin rs :
  existsb (λ r, bool_decide (normalize r = "admin")) rs = true
  ↔ ∃ r, r ∈ rs ∧ normalize r = "admin".
Proof.
  rewrite existsb_exists. split.
  - intros (r & Hin & Hr). exists r. split; [by apply list_elem_of_In|].
    by apply bool_decide_eq_true in Hr.
  - intros (r & Hin & Hr). exists r. split; [by apply list_elem_of_In|].
    by apply bool_decide_eq_true.
Qed.

(** The whole result on a token whose role list is a list of strings. *)
Lemma get_user_details_strings cfg id_token response rs :
  select_roles cfg id_token = Ok (JArr (JStr <$> rs)) →
  get_user_details cfg id_token response
  = Ok {| username := Py.dict_get response (username_key cfg) JNull;
          email := Py.or (Py.dict_get response "email" JNull) (JStr "");
          fullname := Py.or (Py.dict_get response "name" JNull) (JStr "");
          first_name :=
            Py.or (Py.dict_get response "given_name" JNull) (JStr "");
          last_name :=
            Py.or (Py.dict_get response "family_name" JNull) (JStr "");
          is_superuser :=
            existsb (λ r, bool_decide (normalize r = "admin")) rs;
          is_staff :=
            existsb (λ r, bool_decide (normalize r = "admin")) rs;
          roles := normalize <$> rs |}.
Proof.
  intros Hsel. unfold get_user_details. rewrite Hsel. cbn.
  rewrite any_admin_strings. cbn.
  by rewrite group_roles_strings.
Qed.

Lemma dict_get_absent (d : pydict) k default :
  Py.lookup k d = None → Py.dict_get d k default = default.
Proof. unfold Py.dict_get. by intros ->. Qed.

Lemma dict_get_present (d : pydict) k default v :
  Py.lookup k d = Some v → Py.dict_get d k default = v.
Proof. unfold Py.dict_get. by intros ->. Qed.

End UserDetailsFacts.

Section RoleSource.

Implicit Types (cfg : Settings) (id_token response : pydict).

Lemma get_user_details_no_roles cfg id_token response :
  select_roles cfg id_token = Ok (JArr []) →
  ∃ d, get_user_details cfg id_token response = Ok d
       ∧ roles d = [] ∧ is_superuser d = false.
Proof.
  intros Hsel.
  rewrite (get_user_details_strings cfg id_token response [] Hsel).
  eexists. by split.
Qed.

Lemma get_not_object v k default :
  (∀ d, v ≠ JObj d) → Py.get v k default = Raise AttributeError.
Proof. intros Hv. destruct v; try done. by destruct (Hv kvs). Qed.

(** C3, as the code has it. [get_user_details] takes the role list from
    [realm_access.roles] of the id token when the global-role setting is
    true and from [resource_access[client_id].roles] when it is false.
    When a key on that path is absent from the token, the keys before it
    holding dicts, the role list is the empty list and the call returns,
    with no roles and no superuser flag. When a key on the path is
    present with a value that is not a dict, the call raises
    [AttributeError]. *)
Theorem get_user_details_role_source cfg id_token response :
  (global_role cfg = true →
     (∀ realm v,
         Py.lookup "realm_access" id_token = Some (JObj realm) →
         Py.lookup "roles" realm = Some v →
         select_roles cfg id_token = Ok v
         ∧ ∀ rs, v = JArr (JStr <$> rs) →
                 ∃ d, get_user_details cfg id_token response = Ok d
                      ∧ roles d = normalize <$> rs)
     ∧ (Py.lookup "realm_access" id_token = None
        ∨ (∃ realm, Py.lookup "realm_access" id_token = Some (JObj realm)
                    ∧ Py.lookup "roles" realm = None) →
        select_roles cfg id_token = Ok (JArr [])
        ∧ ∃ d, get_user_details cfg id_token response = Ok d
               ∧ roles d = [] ∧ is_superuser d = false)
     ∧ (∀ v, Py.lookup "realm_access" id_token = Some v →
             (∀ d, v ≠ JObj d) →
             select_roles cfg id_token = Raise AttributeError
             ∧ get_user_details cfg id_token response
               = Raise AttributeError))
  ∧ (global_role cfg = false →
     (∀ resources entry v,
         Py.lookup "resource_access" id_token = Some (JObj resources) →
         Py.lookup (client_id cfg) resources = Some (JObj entry) →
         Py.lookup "roles" entry = Some v →
         select_roles cfg id_token = Ok v
         ∧ ∀ rs, v = JArr (JStr <$> rs) →
                 ∃ d, get_user_details cfg id_token response = Ok d
                      ∧ roles d = normalize <$> rs)
     ∧ (Py.lookup "resource_access" id_token = None
        ∨ (∃ resources,
              Py.lookup "resource_access" id_token = Some (JObj resources)
              ∧ Py.lookup (client_id cfg) resources = None)
        ∨ (∃ resources entry,
              Py.lookup "resource_access" id_token = Some (JObj resources)
              ∧ Py.lookup (client_id cfg) resources = Some (JObj entry)
              ∧ Py.lookup "roles" entry = None) →
        select_roles cfg id_token = Ok (JArr [])
        ∧ ∃ d, get_user_details cfg id_token response = Ok d
               ∧ roles d = [] ∧ is_superuser d = false)
     ∧ (∀ v, (Py.lookup "resource_access" id_token = Some v
              ∨ ∃ resources,
                  Py.lookup "resource_access" id_token
                  = Some (JObj resources)
                  ∧ Py.lookup (client_id cfg) resources = Some v) →
             (∀ d, v ≠ JObj d) →
             select_roles cfg id_token = Raise AttributeError
             ∧ get_user_details cfg id_token response
               = Raise AttributeError)).
Proof.
  assert (Hraise : select_roles cfg id_token = Raise AttributeError →
            select_roles cfg id_token = Raise AttributeError
            ∧ get_user_details cfg id_token response = Raise AttributeError).
  { intros Hsel. split; [done|]. unfold get_user_details. by rewrite Hsel. }
  split; intros Hglobal.
  - split; [|split].
    + intros realm v Hrealm Hroles.
      assert (Hsel : select_roles cfg id_token = Ok v).
      { unfold select_roles. rewrite Hglobal.
        rewrite (dict_get_present _ _ _ _ Hrealm). cbn.
        by rewrite (dict_get_present _ _ _ _ Hroles). }
      split; [done|]. intros rs ->.
      rewrite (get_user_details_strings _ _ response _ Hsel).
      by eexists.
    + intros Hmissing.
      assert (Hsel : select_roles cfg id_token = Ok (JArr [])).
      { unfold select_roles. rewrite Hglobal.
        destruct Hmissing as [Hrealm | (realm & Hrealm & Hroles)].
        - by rewrite (dict_get_absent _ _ _ Hrealm).
        - rewrite (dict_get_present _ _ _ _ Hrealm). cbn.
          by rewrite (dict_get_absent _ _ _ Hroles). }
      split; [done|]. by apply get_user_details_no_roles.
    + intros v Hrealm Hv. apply Hraise. unfold select_roles.
      rewrite Hglobal, (dict_get_present _ _ _ _ Hrealm).
      by apply get_not_object.
  - split; [|split].
    + intros resources entry v Hres Hentry Hroles.
      assert (Hsel : select_roles cfg id_token = Ok v).
      { unfold select_roles. rewrite Hglobal.
        rewrite (dict_get_present _ _ _ _ Hres). cbn.
        rewrite (dict_get_present _ _ _ _ Hentry). cbn.
        by rewrite (dict_get_present _ _ _ _ Hroles). }
      split; [done|]. intros rs ->.
      rewrite (get_user_details_strings _ _ response _ Hsel).
      by eexists.
    + intros Hmissing.
      assert (Hsel : select_roles cfg id_token = Ok (JArr [])).
      { unfold select_roles. rewrite Hglobal.
        destruct Hmissing
          as [Hres | [(resources & Hres & Hentry)
                     | (resources & entry & Hres & Hentry & Hroles)]].
        - by rewrite (dict_get_absent _ _ _ Hres).
        - rewrite (dict_get_present _ _ _ _ Hres). cbn.
          by rewrite (dict_get_absent _ _ _ Hentry).
        - rewrite (dict_get_present _ _ _ _ Hres). cbn.
          rewrite (dict_get_present _ _ _ _ Hentry). cbn.
          by rewrite (dict_get_absent _ _ _ Hroles). }
      split; [done|]. by apply get_user_details_no_roles.
    + intros v Hpresent Hv. apply Hraise. unfold select_roles.
      rewrite Hglobal.
      destruct Hpresent as [Hres | (resources & Hres & Hentry)].
      * rewrite (dict_get_present _ _ _ _ Hres).
        by rewrite (get_not_object _ _ _ Hv).
      * rewrite (dict_get_present _ _ _ _ Hres). cbn.
        rewrite (dict_get_present _ _ _ _ Hentry).
        by apply get_not_object.
Qed.

Lemma get_user_details_role_source_witness :
  (select_roles Samples.realm_settings Samples.realm_token
   = Ok (JArr [JStr "admin"; JStr "editor"])
   ∧ ∃ d, get_user_details Samples.realm_settings Samples.realm_token
            Samples.userinfo = Ok d
          ∧ roles d = ["admin"; "editor"])
  ∧ (select_roles Samples.client_settings Samples.realm_token
     = Ok (JArr [])
     ∧ ∃ d, get_user_details Samples.client_settings Samples.realm_token
              Samples.userinfo = Ok d
            ∧ roles d = [] ∧ is_superuser d = false)
  ∧ get_user_details Samples.realm_settings [("realm_access", JNull)]
      Samples.userinfo
    = Raise AttributeError.
Proof.
  split; [|split].
  - destruct (proj1 (proj1 (get_user_details_role_source
                Samples.realm_settings Samples.realm_token
                Samples.userinfo) eq_refl)
                [("roles", JArr [JStr "admin"; JStr "editor"])]
                (JArr [JStr "admin"; JStr "editor"]) eq_refl eq_refl)
      as [Hsel Hdetails].
    split; [exact Hsel|].
    exact (Hdetails ["admin"; "editor"] eq_refl).
  - apply (proj1 (proj2 (proj2 (get_user_details_role_source
              Samples.client_settings Samples.realm_token
              Samples.userinfo) eq_refl))).
    left. reflexivity.
  - apply (proj2 (proj2 (proj1 (get_user_details_role_source
              Samples.realm_settings [("realm_access", JNull)]
              Samples.userinfo) eq_refl)) JNull eq_refl).
    intros d. discriminate.
Defined.

(** C3 as stated fails: a token in which [realm_access], or the entry of
    the client under [resource_access], is [null] has no role list on
    the path, and the call raises [AttributeError] instead of returning
    with an empty role list. *)
Lemma get_user_details_null_path_counterexample :
  get_user_details Samples.realm_settings [("realm_access", JNull)]
    Samples.userinfo
  = Raise AttributeError
  ∧ get_user_details Samples.client_settings
      [("resource_access", JObj [("app1", JNull)])] Samples.userinfo
    = Raise AttributeError.
Proof. split; reflexivity. Qed.

(** The first lookup alone already raises. *)
Example select_roles_null_realm :
  select_roles Samples.realm_settings [("realm_access", JNull)]
  = Raise AttributeError.
Proof. reflexivity. Qed.

End RoleSource.

Section SuperuserFlag.

Implicit Types (cfg : Settings) (id_token response : pydict).

(** C4. On a role list of strings [get_user_details] returns
    [is_superuser] and [is_staff] equal to each other, and true exactly
    when some role, stripped and lowercased, is ["admin"]; a list that
    holds ["  Admin "] or ["admin"] gives [is_superuser = true]. *)
Theorem get_user_details_superuser cfg id_token response rs :
  select_roles cfg id_token = Ok (JArr (JStr <$> rs)) →
  ∃ d, get_user_details cfg id_token response = Ok d
       ∧ is_staff d = is_superuser d
       ∧ (is_superuser d = true ↔ ∃ r, r ∈ rs ∧ normalize r = "admin")
       ∧ ("  Admin " ∈ rs ∨ "admin" ∈ rs → is_superuser d = true).
Proof.
  intros Hsel.
  rewrite (get_user_details_strings _ _ response _ Hsel).
  eexists. split; [reflexivity|]. cbn [is_staff is_superuser].
  split; [reflexivity|]. split; [apply existsb_admin|].
  intros Hin. apply existsb_admin.
  destruct Hin as [Hin | Hin]; eexists; (split; [exact Hin|reflexivity]).
Qed.

Lemma get_user_details_superuser_witness :
  ∃ d, get_user_details Samples.realm_settings Samples.mixed_token
         Samples.userinfo = Ok d
       ∧ is_staff d = is_superuser d
       ∧ (is_superuser d = true
          ↔ ∃ r, r ∈ ["viewer"; "  Admin "] ∧ normalize r = "admin")
       ∧ ("  Admin " ∈ ["viewer"; "  Admin "]
          ∨ "admin" ∈ ["viewer"; "  Admin "] → is_superuser d = true).
Proof.
  apply (get_user_details_superuser Samples.realm_settings
           Samples.mixed_token Samples.userinfo ["viewer"; "  Admin "]).
  reflexivity.
Defined.

Example superuser_mixed_case :
  (d ← get_user_details Samples.realm_settings Samples.mixed_token
         Samples.userinfo;
   Ok (is_superuser d, roles d))
  = Ok (true, ["viewer"; "admin"]).
Proof. reflexivity. Qed.

(** C10. When the configured username key is absent from the userinfo
    response, [username] is [None]; [email], [fullname], [first_name]
    and [last_name] are the empty string when their keys are absent. *)
Theorem get_user_details_absent_fields cfg id_token response rs :
  select_roles cfg id_token = Ok (JArr (JStr <$> rs)) →
  Py.lookup (username_key cfg) response = None →
  ∃ d, get_user_details cfg id_token response = Ok d
       ∧ username d = JNull
       ∧ username d ≠ JStr ""
       ∧ (Py.lookup "email" response = None → email d = JStr "")
       ∧ (Py.lookup "name" response = None → fullname d = JStr "")
       ∧ (Py.lookup "given_name" response = None → first_name d = JStr "")
       ∧ (Py.lookup "family_name" response = None → last_name d = JStr "").
Proof.
  intros Hsel Huser.
  rewrite (get_user_details_strings _ _ response _ Hsel).
  eexists. split; [reflexivity|].
  cbn [username email fullname first_name last_name].
  rewrite (dict_get_absent _ _ _ Huser).
  repeat split; try done;
    intros Habsent; by rewrite (dict_get_absent _ _ _ Habsent).
Qed.

Lemma get_user_details_absent_fields_witness :
  ∃ d, get_user_details Samples.realm_settings Samples.realm_token
         Samples.userinfo = Ok d
       ∧ username d = JNull
       ∧ email d = JStr ""
       ∧ last_name d = JStr "".
Proof.
  destruct (get_user_details_absent_fields Samples.realm_settings
              Samples.realm_token Samples.userinfo ["admin"; "editor"]
              eq_refl eq_refl)
    as (d & Hd & Huser & _ & Hemail & _ & _ & Hlast).
  exists d. split; [exact Hd|]. split; [exact Huser|].
  split; [exact (Hemail eq_refl) | exact (Hlast eq_refl)].
Defined.

End SuperuserFlag.

(** ** The end-session URL *)

Section EndSession.

Implicit Types (cfg : Settings) (doc : pydict).

(** C9, as the code has it. [end_session_url] returns the override when
    it is not empty, without consulting the discovery document;
    otherwise it returns the document's [end_session_endpoint], and
    [None] when the document has none. It raises only what fetching the
    document raises. *)
Theorem end_session_url_value cfg (oidc_config : result pydict) :
  (END_SESSION_URL cfg ≠ "" →
     end_session_url cfg oidc_config = Ok (JStr (END_SESSION_URL cfg)))
  ∧ (END_SESSION_URL cfg = "" →
     (∀ doc, oidc_config = Ok doc →
        (∀ v, Py.lookup "end_session_endpoint" doc = Some v →
              end_session_url cfg oidc_config = Ok v)
        ∧ (Py.lookup "end_session_endpoint" doc = None →
           end_session_url cfg oidc_config = Ok JNull))
     ∧ (∀ e, oidc_config = Raise e →
             end_session_url cfg oidc_config = Raise e)).
Proof.
  unfold end_session_url. split.
  - intros Hset. apply String.eqb_neq in Hset. by rewrite Hset.
  - intros Hempty. rewrite Hempty. cbn. split.
    + intros doc ->. cbn. split.
      * intros v Hv. by rewrite (dict_get_present _ _ _ _ Hv).
      * intros Hv. by rewrite (dict_get_absent _ _ _ Hv).
    + by intros e ->.
Qed.

Lemma end_session_url_value_witness :
  end_session_url Samples.override_settings (Raise ProviderError)
  = Ok (JStr "https://idp.example/logout")
  ∧ end_session_url Samples.realm_settings (Ok Samples.discovery_doc)
    = Ok (JStr "https://idp.example/realms/corp/logout")
  ∧ end_session_url Samples.realm_settings (Ok Samples.realm_token)
    = Ok JNull.
Proof.
  split; [|split].
  - apply (proj1 (end_session_url_value Samples.override_settings
                    (Raise ProviderError))).
    discriminate.
  - apply (proj1 (proj1 (proj2 (end_session_url_value
              Samples.realm_settings (Ok Samples.discovery_doc)) eq_refl)
              Samples.discovery_doc eq_refl)).
    reflexivity.
  - apply (proj2 (proj1 (proj2 (end_session_url_value
              Samples.realm_settings (Ok Samples.realm_token)) eq_refl)
              Samples.realm_token eq_refl)).
    reflexivity.
Defined.

(** C9 as stated fails: with no override and no [end_session_endpoint]
    in the discovery document the call returns [None]; it does not
    raise. *)
Lemma end_session_url_absent_counterexample :
  END_SESSION_URL Samples.realm_settings = ""
  ∧ Py.lookup "end_session_endpoint" [] = None
  ∧ end_session_url Samples.realm_settings (Ok []) = Ok JNull
  ∧ ∀ e, end_session_url Samples.realm_settings (Ok []) ≠ Raise e.
Proof. repeat split. intros e. discriminate. Qed.

End EndSession.

(** ** Session rotation *)

Section SessionFacts.

Variable new_session_key : gset string → string.

Implicit Types (s : Session) (params : gmap string json).

Lemma acp_locked params s :
  locked (snd (auth_complete_params new_session_key params s)).
Proof. by split. Qed.

Lemma acp_param params s :
  let r := auth_complete_params new_session_key params s in
  fst r !! "client_session_state" = Some (key_value (session_key (snd r))).
Proof. cbn. apply lookup_insert_eq. Qed.

Lemma cycle_key_locked s : locked s → cycle_key new_session_key s = s.
Proof. intros [Hc _]. unfold cycle_key. by rewrite Hc. Qed.

Lemma flush_locked s : locked s → flush s = clear s.
Proof. intros [_ Hf]. unfold flush. by rewrite Hf. Qed.

(** No step of a request touches the key, the storage or the two
    attributes of a locked session object. *)
Lemma step_locked s c :
  locked s →
  locked (step new_session_key s c)
  ∧ session_key (step new_session_key s c) = session_key s
  ∧ storage (step new_session_key s c) = storage s.
Proof.
  intros Hl. destruct c; cbn.
  - by rewrite (cycle_key_locked s Hl).
  - rewrite (flush_locked s Hl). by destruct Hl.
  - by destruct Hl.
  - by destruct Hl.
  - rewrite (cycle_key_locked s Hl). by split.
Qed.

Lemma run_locked s cs :
  locked s →
  locked (run new_session_key s cs)
  ∧ session_key (run new_session_key s cs) = session_key s
  ∧ storage (run new_session_key s cs) = storage s.
Proof.
  revert s. induction cs as [|c cs IH]; intros s Hl; [done|].
  destruct (step_locked s c Hl) as (Hl' & Hkey & Hsto).
  destruct (IH _ Hl') as (Hl'' & Hkey' & Hsto').
  change (run new_session_key s (c :: cs))
    with (run new_session_key (step new_session_key s c) cs).
  split; [done|]. split; congruence.
Qed.

(** C6, as the code has it. On a session object whose [cycle_key] is
    still the framework's, [auth_complete_params] generates one new key,
    one that no stored session had, makes it the session's key and
    returns it under [client_session_state]. It differs from the key the
    session held before the call whenever that key was the key of a
    stored session or the session had none. *)
Theorem auth_complete_params_rotates params s :
  (∀ keys, new_session_key keys ∉ keys) →
  cycle_key_attr s = CycleKeyDefault →
  let r := auth_complete_params new_session_key params s in
  let k := new_session_key (storage s) in
  fst r !! "client_session_state" = Some (JStr k)
  ∧ session_key (snd r) = Some k
  ∧ (k ∉ storage s)
  ∧ (key_stored s → session_key s ≠ Some k ∧ k ∈ storage (snd r)).
Proof.
  intros Hfresh Hattr r k. subst r k.
  rewrite acp_param.
  unfold auth_complete_params, cycle_key. rewrite Hattr. cbn.
  pose proof (Hfresh (storage s)) as Hk.
  split; [done|]. split; [done|]. split; [done|].
  intros Hstored.
  assert (Hne : session_key s ≠ Some (new_session_key (storage s))).
  { intros Hold. by apply Hk, Hstored. }
  split; [done|].
  destruct (session_key s) as [old|].
  - rewrite elem_of_difference, elem_of_union, !elem_of_singleton.
    split; [by left | congruence].
  - rewrite elem_of_union, elem_of_singleton. by left.
Qed.

(** C7. After [auth_complete_params], whatever the request does next
    with the session object, [flush] is [clear]: it empties the data and
    leaves the key and the storage as they are, [cycle_key] does
    nothing, and the key stays the one that was sent under
    [client_session_state]. *)
Theorem flush_keeps_session_key params s cs :
  let r := auth_complete_params new_session_key params s in
  let s2 := run new_session_key (snd r) cs in
  flush s2 = clear s2
  ∧ session_data (flush s2) = ∅
  ∧ session_key (flush s2) = session_key (snd r)
  ∧ storage (flush s2) = storage (snd r)
  ∧ cycle_key new_session_key s2 = s2
  ∧ fst r !! "client_session_state"
    = Some (key_value (session_key (flush s2))).
Proof.
  intros r s2. subst r s2.
  destruct (run_locked _ cs (acp_locked params s)) as (Hl & Hkey & Hsto).
  rewrite (flush_locked _ Hl), (cycle_key_locked _ Hl).
  repeat split; try done.
  rewrite acp_param. cbn [clear session_key]. by rewrite Hkey.
Qed.

(** C8, as the code has it. Nothing releases the lock: after
    [auth_complete_params] both attributes of the session object stay
    replaced through every later step of the request, so [cycle_key]
    and [flush] never get their normal behaviour back on this object.
    Only the session object that the framework builds for another
    request has the framework's methods again. *)
Theorem lock_is_never_released params s cs :
  let r := auth_complete_params new_session_key params s in
  let s2 := run new_session_key (snd r) cs in
  cycle_key_attr s2 = CycleKeyNoop
  ∧ flush_attr s2 = FlushIsClear
  ∧ cycle_key new_session_key s2 = s2
  ∧ session_key (flush s2) = session_key s2
  ∧ ∀ data,
      let s3 := SessionStore (storage s2) (session_key s2) data in
      cycle_key new_session_key s3 = default_cycle_key new_session_key s3
      ∧ flush s3 = default_flush s3.
Proof.
  intros r s2. subst r s2.
  destruct (run_locked _ cs (acp_locked params s)) as (Hl & _ & _).
  rewrite (flush_locked _ Hl), (cycle_key_locked _ Hl).
  destruct Hl as [Hc Hf]. by repeat split.
Qed.

End SessionFacts.

Lemma auth_complete_params_rotates_witness :
  let r := auth_complete_params Samples.new_key Samples.base_params
             Samples.session0 in
  fst r !! "client_session_state" = Some (JStr (Samples.new_key {["k0"]}))
  ∧ session_key (snd r) = Some (Samples.new_key {["k0"]})
  ∧ Some "k0" ≠ Some (Samples.new_key {["k0"]}).
Proof.
  destruct (auth_complete_params_rotates Samples.new_key
              Samples.base_params Samples.session0
              (λ keys, is_fresh keys) eq_refl)
    as (Hparam & Hkey & _ & Hstored).
  split; [exact Hparam | split; [exact Hkey|]].
  apply Hstored. intros old H.
  exact (eq_ind "k0" (λ k, k ∈ ({["k0"]} : gset string))
           (proj2 (elem_of_singleton "k0" "k0") eq_refl)
           old (Some_inj _ _ H)).
Defined.

(** C6 as stated fails on a session object on which the operation has
    already been called: the second call returns, under
    [client_session_state], the identifier the session held before it. *)
Lemma auth_complete_params_repeated_counterexample :
  let s1 := snd (auth_complete_params Samples.new_key Samples.base_params
                   Samples.session0) in
  let r := auth_complete_params Samples.new_key Samples.base_params s1 in
  fst r !! "client_session_state" = Some (key_value (session_key s1))
  ∧ session_key (snd r) = session_key s1.
Proof. cbn zeta. split; [apply lookup_insert_eq | reflexivity]. Qed.

(** C8 as stated fails: after the login that follows a completed
    authentication has called [cycle_key] and [flush], both attributes
    are still replaced, a further [cycle_key] leaves the key alone and a
    further [flush] keeps it. *)
Lemma lock_released_counterexample :
  let r := auth_complete_params Samples.new_key Samples.base_params
             Samples.session0 in
  let s2 := run Samples.new_key (snd r) [CallCycleKey; CallFlush] in
  cycle_key_attr s2 ≠ CycleKeyDefault
  ∧ flush_attr s2 ≠ FlushDefault
  ∧ session_key (cycle_key Samples.new_key s2) = session_key s2
  ∧ is_Some (session_key (flush s2)).
Proof. cbn. repeat split; try discriminate. by eexists. Qed.

(** ** Role synchronization *)

Local Open Scope list_scope.

Section GroupTable.

Implicit Types (table extra : list Group) (g : Group) (db : DB)
  (names : gset string).

Lemma next_id_unused table : next_id table ∉ group_id <$> table.
Proof. apply max_list_not_elem_of_gt. unfold next_id. lia. Qed.

Lemma fmap_eq_in_NoDup {A B} (f : A → B) (l : list A) x y :
  NoDup (f <$> l) → x ∈ l → y ∈ l → f x = f y → x = y.
Proof.
  induction l as [|a l IH]; cbn; intros Hnd Hx Hy Hf.
  - by apply elem_of_nil in Hx.
  - apply NoDup_cons in Hnd as [Ha Hnd].
    apply elem_of_cons in Hx as [->|Hx];
      apply elem_of_cons in Hy as [->|Hy]; auto.
    + exfalso. apply Ha. rewrite Hf. by apply list_elem_of_fmap_2.
    + exfalso. apply Ha. rewrite <- Hf. by apply list_elem_of_fmap_2.
Qed.

Lemma filter_name_absent table name :
  name ∉ group_name <$> table →
  filter (λ g, group_name g = name) table = [].
Proof.
  intros Hname. induction table as [|g table IH]; [done|].
  rewrite fmap_cons, not_elem_of_cons in Hname.
  destruct Hname as [Hne Hname].
  rewrite filter_cons_False by (intros Heq; by apply Hne).
  by apply IH.
Qed.

Lemma filter_name_present table name :
  NoDup (group_name <$> table) →
  name ∈ group_name <$> table →
  ∃ g, filter (λ g, group_name g = name) table = [g]
       ∧ g ∈ table ∧ group_name g = name.
Proof.
  induction table as [|g table IH]; intros Hnd Hin.
  - by apply elem_of_nil in Hin.
  - rewrite fmap_cons in Hnd, Hin. apply NoDup_cons in Hnd as [Hg Hnd].
    destruct (decide (group_name g = name)) as [Heq|Hne].
    + exists g. rewrite filter_cons_True by done.
      rewrite filter_name_absent by (by rewrite <- Heq).
      split; [done|]. split; [apply elem_of_cons; by left | done].
    + rewrite filter_cons_False by done.
      apply elem_of_cons in Hin as [Heq|Hin]; [by subst|].
      destruct (IH Hnd Hin) as (g' & Hf & Hg' & Hname).
      exists g'. split; [done|]. split; [|done].
      apply elem_of_cons. by right.
Qed.

(** [get_or_create] on a table that meets its constraints: it returns
    a row of the requested name, keeps the constraints and the
    memberships, and adds one row only when the name was not there. *)
Lemma get_or_create_ok name db :
  table_ok (auth_group db) →
  ∃ g created db' extra,
    get_or_create name db = Ok (g, created, db')
    ∧ group_name g = name
    ∧ g ∈ auth_group db'
    ∧ user_groups db' = user_groups db
    ∧ auth_group db' = auth_group db ++ extra
    ∧ table_ok (auth_group db')
    ∧ ∀ g', g' ∈ extra → group_name g' = name.
Proof.
  intros [Hids Hnames]. unfold get_or_create.
  destruct (decide (name ∈ group_name <$> auth_group db)) as [Hin|Hout].
  - destruct (filter_name_present _ _ Hnames Hin) as (g & -> & Hg & Hname).
    exists g, false, db, []. rewrite app_nil_r.
    repeat split; try done. intros g' Hg'. by apply elem_of_nil in Hg'.
  - rewrite (filter_name_absent _ _ Hout).
    eexists _, true, _, [_]. split; [reflexivity|]. cbn.
    split; [done|]. split; [set_solver|]. split; [done|].
    split; [done|]. split.
    + split; rewrite fmap_app; apply NoDup_app; cbn.
      * split; [done|]. split; [|apply NoDup_singleton].
        intros i Hi Hi'. apply list_elem_of_singleton in Hi'. subst i.
        by apply (next_id_unused (auth_group db)).
      * split; [done|]. split; [|apply NoDup_singleton].
        intros n Hn Hn'. apply list_elem_of_singleton in Hn'. by subst n.
    + intros g' Hg'. apply list_elem_of_singleton in Hg'. by subst g'.
Qed.

Lemma elem_of_ids_named names table i :
  i ∈ ids_named names table
  ↔ ∃ g, g ∈ table ∧ group_name g ∈ names ∧ group_id g = i.
Proof.
  unfold ids_named. rewrite elem_of_list_to_set, list_elem_of_fmap.
  split.
  - intros (g & -> & Hg). apply list_elem_of_filter in Hg as [Hn Hg].
    by exists g.
  - intros (g & Hg & Hn & <-). exists g. split; [done|].
    by apply list_elem_of_filter.
Qed.

Lemma elem_of_group_names db n :
  n ∈ group_names db
  ↔ ∃ g, g ∈ auth_group db ∧ group_id g ∈ user_groups db
         ∧ group_name g = n.
Proof.
  unfold group_names. rewrite elem_of_list_to_set, list_elem_of_fmap.
  split.
  - intros (g & -> & Hg). apply list_elem_of_filter in Hg as [Hi Hg].
    by exists g.
  - intros (g & Hg & Hi & <-). exists g. split; [done|].
    by apply list_elem_of_filter.
Qed.

Lemma ids_named_empty table : ids_named ∅ table = ∅.
Proof.
  apply set_eq. intros i. rewrite elem_of_ids_named. split.
  - intros (g & _ & Hn & _). by apply elem_of_empty in Hn.
  - intros Hi. by apply elem_of_empty in Hi.
Qed.

Lemma ids_named_insert names table g :
  NoDup (group_name <$> table) → g ∈ table →
  ids_named ({[group_name g]} ∪ names) table
  = {[group_id g]} ∪ ids_named names table.
Proof.
  intros Hnd Hg. apply set_eq. intros i.
  rewrite elem_of_union, elem_of_singleton, !elem_of_ids_named. split.
  - intros (g' & Hg' & Hn & <-).
    apply elem_of_union in Hn as [Hn|Hn].
    + left. apply elem_of_singleton in Hn.
      by rewrite (fmap_eq_in_NoDup group_name table g' g).
    + right. by exists g'.
  - intros [-> | (g' & Hg' & Hn & <-)].
    + exists g. set_solver.
    + exists g'. set_solver.
Qed.

End GroupTable.

Section Synchronizer.

Implicit Types (rs : list string) (db : DB) (instance : User).

(** The loop over a list of role strings, from any memberships: it
    returns; the table grows only by rows named after a role; every
    role has its row; the user gains exactly the rows named after the
    roles. *)
Lemma add_roles_strings rs db :
  table_ok (auth_group db) →
  ∃ db' extra,
    add_roles (JStr <$> rs) db = Ok db'
    ∧ auth_group db' = auth_group db ++ extra
    ∧ table_ok (auth_group db')
    ∧ (∀ g, g ∈ extra →
            group_name g ∈ (list_to_set (normalize <$> rs) : gset string))
    ∧ (∀ n, n ∈ (list_to_set (normalize <$> rs) : gset string) →
            n ∈ group_name <$> auth_group db')
    ∧ user_groups db'
      = user_groups db
        ∪ ids_named (list_to_set (normalize <$> rs)) (auth_group db').
Proof.
  revert db. induction rs as [|r rs IH]; intros db Hok.
  - exists db, []. cbn. rewrite app_nil_r, ids_named_empty.
    split; [done|]. split; [done|]. split; [done|]. split; [|split].
    + intros g Hg. by apply elem_of_nil in Hg.
    + intros n Hn. by apply elem_of_empty in Hn.
    + by rewrite union_empty_r_L.
  - destruct (get_or_create_ok (normalize r) db Hok)
      as (g & created & db1 & extra1
          & Hget & Hname & Hg & Hug1 & Htab1 & Hok1 & Hextra1).
    destruct (IH (groups_add g db1) Hok1)
      as (db' & extra' & Hrun & Htab' & Hok' & Hextra' & Hall & Hug').
    exists db', (extra1 ++ extra'). cbn in Htab', Hug'.
    assert (Hg' : g ∈ auth_group db').
    { rewrite Htab'. apply elem_of_app. by left. }
    split.
    { cbn. rewrite Hget. cbn. exact Hrun. }
    split; [by rewrite Htab', Htab1, app_assoc|].
    split; [done|]. rewrite fmap_cons, list_to_set_cons.
    split; [|split].
    + intros g0 Hg0. apply elem_of_app in Hg0 as [Hg0|Hg0].
      * apply elem_of_union_l, elem_of_singleton. by apply Hextra1.
      * apply elem_of_union_r. by apply Hextra'.
    + intros n Hn. apply elem_of_union in Hn as [Hn|Hn].
      * apply elem_of_singleton in Hn. subst n. rewrite <- Hname.
        by apply list_elem_of_fmap_2.
      * by apply Hall.
    + rewrite Hug', Hug1, <- Hname.
      rewrite (ids_named_insert _ _ g (proj2 Hok') Hg').
      rewrite (union_comm_L {[group_id g]} (user_groups db)).
      by rewrite <- (assoc_L (∪)).
Qed.

(** The synchronizer on a user whose first linked identity stores a
    list of role strings, or no [roles] at all. *)
Lemma add_user_groups_strings instance social rest rs db :
  social_auth instance = social :: rest →
  Py.lookup "roles" (extra_data social) = Some (JArr (JStr <$> rs))
  ∨ (Py.lookup "roles" (extra_data social) = None ∧ rs = []) →
  table_ok (auth_group db) →
  ∃ db' extra,
    add_user_groups instance db = Ok db'
    ∧ auth_group db' = auth_group db ++ extra
    ∧ table_ok (auth_group db')
    ∧ (∀ g, g ∈ extra →
            group_name g ∈ (list_to_set (normalize <$> rs) : gset string))
    ∧ (∀ n, n ∈ (list_to_set (normalize <$> rs) : gset string) →
            n ∈ group_name <$> auth_group db')
    ∧ user_groups db'
      = ids_named (list_to_set (normalize <$> rs)) (auth_group db').
Proof.
  intros Hsocial Hroles Hok. unfold add_user_groups. rewrite Hsocial.
  destruct Hroles as [Hroles | [Hroles ->]]; rewrite Hroles.
  - destruct (add_roles_strings rs (groups_clear db) Hok)
      as (db' & extra & Hrun & Htab & Hok' & Hextra & Hall & Hug).
    exists db', extra. cbn in Hug. rewrite union_empty_l_L in Hug.
    cbn. rewrite Hrun. done.
  - exists (groups_clear db), [].
    change (list_to_set (normalize <$> [])) with (∅ : gset string).
    rewrite app_nil_r, ids_named_empty.
    split; [done|]. split; [done|]. split; [done|]. split; [|split].
    + intros g Hg. by apply elem_of_nil in Hg.
    + intros n Hn. by apply elem_of_empty in Hn.
    + done.
Qed.

Lemma group_names_ids_named db (names : gset string) :
  table_ok (auth_group db) →
  (∀ n, n ∈ names → n ∈ group_name <$> auth_group db) →
  user_groups db = ids_named names (auth_group db) →
  group_names db = names.
Proof.
  intros [Hids _] Hall Hug. apply set_eq. intros n.
  rewrite elem_of_group_names. split.
  - intros (g & Hg & Hi & <-).
    rewrite Hug in Hi. apply elem_of_ids_named in Hi as (g' & Hg' & Hn & Hi).
    by rewrite <- (fmap_eq_in_NoDup group_id _ g' g Hids Hg' Hg Hi).
  - intros Hn. destruct (proj1 (list_elem_of_fmap _ _ _) (Hall n Hn))
      as (g & -> & Hg).
    exists g. split; [done|]. split; [|done].
    rewrite Hug. apply elem_of_ids_named. by exists g.
Qed.

End Synchronizer.

Section Reconciliation.

Implicit Types (rs : list string) (db : DB) (instance : User).

Lemma sample_table_ok : table_ok (auth_group Samples.groups0).
Proof. split; cbn; apply (bool_decide_unpack _); by vm_compute. Qed.

(** C1. For a user with at least one linked identity whose first
    identity stores a list of role strings (or no [roles], which counts
    as no role), on a group table that meets its constraints
    [add_user_groups] returns, and afterwards the names of the user's
    groups are exactly the stripped and lowercased roles: no earlier
    membership survives unless its name is one of them, every
    membership is a row of the table, existing rows are reused and a
    row is created only for a role name that had none. *)
Theorem add_user_groups_reconciles instance social rest rs db :
  social_auth instance = social :: rest →
  Py.lookup "roles" (extra_data social) = Some (JArr (JStr <$> rs))
  ∨ (Py.lookup "roles" (extra_data social) = None ∧ rs = []) →
  table_ok (auth_group db) →
  ∃ db',
    add_user_groups instance db = Ok db'
    ∧ group_names db' = list_to_set (normalize <$> rs)
    ∧ (∀ g, g ∈ auth_group db' → group_id g ∈ user_groups db' →
            group_name g ∈ (list_to_set (normalize <$> rs) : gset string))
    ∧ (∀ i, i ∈ user_groups db' →
            ∃ g, g ∈ auth_group db' ∧ group_id g = i)
    ∧ table_ok (auth_group db')
    ∧ ∃ extra,
        auth_group db' = auth_group db ++ extra
        ∧ ∀ g, g ∈ extra →
               group_name g ∈ (list_to_set (normalize <$> rs) : gset string)
               ∧ group_name g ∉ group_name <$> auth_group db.
Proof.
  intros Hsocial Hroles Hok.
  destruct (add_user_groups_strings _ _ _ _ _ Hsocial Hroles Hok)
    as (db' & extra & Hrun & Htab & Hok' & Hextra & Hall & Hug).
  pose proof (group_names_ids_named db' _ Hok' Hall Hug) as Hnames.
  exists db'. split; [done|]. split; [done|]. split; [|split; [|split]].
  - intros g Hg Hi. rewrite <- Hnames. apply elem_of_group_names.
    by exists g.
  - intros i Hi. rewrite Hug in Hi.
    apply elem_of_ids_named in Hi as (g & Hg & _ & Hi). by exists g.
  - done.
  - exists extra. split; [done|]. intros g Hg. split; [by apply Hextra|].
    destruct Hok' as [_ Hnd]. rewrite Htab, fmap_app in Hnd.
    apply NoDup_app in Hnd as (_ & Hdisjoint & _).
    intros Hold. apply (Hdisjoint _ Hold). by apply list_elem_of_fmap_2.
Qed.

Lemma add_user_groups_reconciles_witness :
  ∃ db',
    add_user_groups Samples.user0 Samples.groups0 = Ok db'
    ∧ group_names db' = {["admin"; "editor"]}.
Proof.
  destruct (add_user_groups_reconciles Samples.user0 Samples.social0 []
              Samples.roles0 Samples.groups0
              eq_refl (or_introl eq_refl) sample_table_ok)
    as (db' & Hrun & Hnames & _).
  exists db'. split; [exact Hrun|].
  rewrite Hnames. apply set_eq. intros n.
  cbn. rewrite !elem_of_union, !elem_of_singleton, elem_of_empty.
  tauto.
Defined.

(** C2. Running [add_user_groups] a second time on the result of the
    first run, with the same stored roles, returns the same database:
    the same memberships and the same group table. *)
Theorem add_user_groups_idempotent instance db :
  (∀ social rest, social_auth instance = social :: rest →
     ∃ rs, Py.lookup "roles" (extra_data social) = Some (JArr (JStr <$> rs))
           ∨ (Py.lookup "roles" (extra_data social) = None ∧ rs = [])) →
  table_ok (auth_group db) →
  ∃ db1,
    add_user_groups instance db = Ok db1
    ∧ add_user_groups instance db1 = Ok db1.
Proof.
  intros Htyped Hok.
  destruct (social_auth instance) as [|social rest] eqn:Hsocial.
  { exists db. unfold add_user_groups. by rewrite Hsocial. }
  destruct (Htyped social rest eq_refl) as [rs Hroles].
  destruct (add_user_groups_strings _ _ _ _ db Hsocial Hroles Hok)
    as (db1 & extra1 & Hrun1 & Htab1 & Hok1 & _ & Hall1 & Hug1).
  destruct (add_user_groups_strings _ _ _ _ db1 Hsocial Hroles Hok1)
    as (db2 & extra2 & Hrun2 & Htab2 & Hok2 & Hextra2 & _ & Hug2).
  exists db1. split; [done|]. rewrite Hrun2. f_equal.
  assert (extra2 = []) as ->.
  { destruct extra2 as [|g extra2]; [done|]. exfalso.
    destruct Hok2 as [_ Hnd]. rewrite Htab2, fmap_app in Hnd.
    apply NoDup_app in Hnd as (_ & Hdisjoint & _).
    apply (Hdisjoint (group_name g)).
    - apply Hall1, Hextra2, elem_of_cons. by left.
    - apply list_elem_of_fmap_2, elem_of_cons. by left. }
  rewrite app_nil_r in Htab2. rewrite Htab2 in Hug2.
  destruct db1, db2; cbn in *. congruence.
Qed.

Lemma add_user_groups_idempotent_witness :
  ∃ db1,
    add_user_groups Samples.user0 Samples.groups0 = Ok db1
    ∧ add_user_groups Samples.user0 db1 = Ok db1.
Proof.
  apply (add_user_groups_idempotent Samples.user0 Samples.groups0).
  - intros social rest Hsocial. exists Samples.roles0. left.
    injection Hsocial as <- _. reflexivity.
  - exact sample_table_ok.
Defined.

(** A user with no linked identity: nothing is touched. *)
Example add_user_groups_local_user db :
  add_user_groups {| social_auth := [] |} db = Ok db.
Proof. reflexivity. Qed.

End Reconciliation.

(** * Further properties of the code *)

(** ** Stripping and lowercasing *)

Section Normalization.

Local Ltac by_cases_on_char c :=
  destruct c as [[] [] [] [] [] [] [] []]; vm_compute; try reflexivity.

Lemma is_space_lower_char c :
  PyStr.is_space (PyStr.lower_char c) = PyStr.is_space c.
Proof. by_cases_on_char c. Qed.

Lemma lower_char_idemp c :
  PyStr.lower_char (PyStr.lower_char c) = PyStr.lower_char c.
Proof. by_cases_on_char c. Qed.

Lemma lstrip_chars_idemp l :
  PyStr.lstrip_chars (PyStr.lstrip_chars l) = PyStr.lstrip_chars l.
Proof.
  induction l as [|c l IH]; [done|]. cbn.
  destruct (PyStr.is_space c) eqn:Hc; [done|]. cbn. by rewrite Hc.
Qed.

Lemma lstrip_chars_map_lower l :
  PyStr.lstrip_chars (map PyStr.lower_char l)
  = map PyStr.lower_char (PyStr.lstrip_chars l).
Proof.
  induction l as [|c l IH]; [done|]. cbn.
  rewrite is_space_lower_char. by destruct (PyStr.is_space c).
Qed.

Lemma rstrip_chars_map_lower l :
  PyStr.rstrip_chars (map PyStr.lower_char l)
  = map PyStr.lower_char (PyStr.rstrip_chars l).
Proof.
  unfold PyStr.rstrip_chars.
  by rewrite <- map_rev, lstrip_chars_map_lower, map_rev.
Qed.

Lemma rstrip_chars_idemp l :
  PyStr.rstrip_chars (PyStr.rstrip_chars l) = PyStr.rstrip_chars l.
Proof.
  unfold PyStr.rstrip_chars. by rewrite rev_involutive, lstrip_chars_idemp.
Qed.

(** What [lstrip] removes is a run of whitespace. *)
Lemma lstrip_chars_split l :
  ∃ ws, l = ws ++ PyStr.lstrip_chars l
        ∧ Forall (λ c, PyStr.is_space c = true) ws.
Proof.
  induction l as [|c l (ws & Hl & Hws)].
  - by exists [].
  - cbn. destruct (PyStr.is_space c) eqn:Hc.
    + exists (c :: ws). split; [by rewrite <- app_comm_cons, <- Hl|].
      by constructor.
    + by exists [].
Qed.

Lemma rstrip_chars_split l :
  ∃ ws, l = PyStr.rstrip_chars l ++ ws
        ∧ Forall (λ c, PyStr.is_space c = true) ws.
Proof.
  destruct (lstrip_chars_split (rev l)) as (ws & Hl & Hws).
  exists (rev ws). split.
  - unfold PyStr.rstrip_chars. rewrite <- rev_app_distr, <- Hl.
    by rewrite rev_involutive.
  - by apply Forall_rev.
Qed.

(** Stripping on the right keeps a stripped left end. *)
Lemma lstrip_rstrip_chars l :
  PyStr.lstrip_chars l = l →
  PyStr.lstrip_chars (PyStr.rstrip_chars l) = PyStr.rstrip_chars l.
Proof.
  intros Hl. destruct (rstrip_chars_split l) as (ws & Hsplit & Hws).
  destruct (PyStr.rstrip_chars l) as [|c p] eqn:Hp; [done|].
  rewrite Hsplit in Hl. cbn in Hl. cbn.
  destruct (PyStr.is_space c) eqn:Hc; [|done].
  exfalso. destruct (lstrip_chars_split (p ++ ws)) as (ws' & Heq & _).
  apply (f_equal (@length _)) in Heq, Hl.
  rewrite (length_app ws') in Heq. cbn in Hl. lia.
Qed.

Lemma strip_chars_idemp l :
  PyStr.rstrip_chars (PyStr.lstrip_chars
    (PyStr.rstrip_chars (PyStr.lstrip_chars l)))
  = PyStr.rstrip_chars (PyStr.lstrip_chars l).
Proof.
  rewrite (lstrip_rstrip_chars _ (lstrip_chars_idemp l)).
  apply rstrip_chars_idemp.
Qed.

Lemma strip_idemp s : PyStr.strip (PyStr.strip s) = PyStr.strip s.
Proof.
  unfold PyStr.strip.
  by rewrite list_ascii_of_string_of_list_ascii, strip_chars_idemp.
Qed.

Lemma lower_idemp s : PyStr.lower (PyStr.lower s) = PyStr.lower s.
Proof.
  unfold PyStr.lower. rewrite list_ascii_of_string_of_list_ascii, map_map.
  f_equal. apply map_ext. intros c. apply lower_char_idemp.
Qed.

Lemma strip_lower s : PyStr.strip (PyStr.lower s) = PyStr.lower (PyStr.strip s).
Proof.
  unfold PyStr.strip, PyStr.lower.
  rewrite !list_ascii_of_string_of_list_ascii.
  by rewrite lstrip_chars_map_lower, rstrip_chars_map_lower.
Qed.

Lemma normalize_fixed role : normalize (normalize role) = normalize role.
Proof.
  unfold normalize. by rewrite strip_lower, strip_idemp, lower_idemp.
Qed.

(** X1. A stripped and lowercased role is in normal form: stripping and
    lowercasing it again, as the synchronizer does with the roles the
    backend returned, changes nothing, and it has neither surrounding
    whitespace nor a capital left. *)
Theorem normalize_idemp role :
  normalize (normalize role) = normalize role
  ∧ PyStr.strip (normalize role) = normalize role
  ∧ PyStr.lower (normalize role) = normalize role.
Proof.
  unfold normalize. by rewrite !strip_lower, !strip_idemp, !lower_idemp.
Qed.

End Normalization.

(** ** Which roles make a superuser *)

Section AdminLetters.

Local Open Scope char_scope.

Local Ltac lower_char_cases c :=
  destruct c as [[] [] [] [] [] [] [] []]; vm_compute;
  (split;
   [ intros H; first [discriminate H | by left | by right]
   | intros [H|H]; first [discriminate H | reflexivity] ]).

Lemma lower_char_a c : PyStr.lower_char c = "a" ↔ c = "a" ∨ c = "A".
Proof. lower_char_cases c. Qed.

Lemma lower_char_d c : PyStr.lower_char c = "d" ↔ c = "d" ∨ c = "D".
Proof. lower_char_cases c. Qed.

Lemma lower_char_m c : PyStr.lower_char c = "m" ↔ c = "m" ∨ c = "M".
Proof. lower_char_cases c. Qed.

Lemma lower_char_i c : PyStr.lower_char c = "i" ↔ c = "i" ∨ c = "I".
Proof. lower_char_cases c. Qed.

Lemma lower_char_n c : PyStr.lower_char c = "n" ↔ c = "n" ∨ c = "N".
Proof. lower_char_cases c. Qed.

End AdminLetters.

Section AdminRole.

Lemma lower_String c s :
  PyStr.lower (String c s) = String (PyStr.lower_char c) (PyStr.lower s).
Proof. reflexivity. Qed.

(** X2. A role counts as ["admin"] exactly when, once stripped, it is
    the five letters a, d, m, i, n, each in either case: no other
    character lowercases into the name. *)
Theorem normalize_admin_iff role :
  normalize role = "admin"
  ↔ ∃ c1 c2 c3 c4 c5,
      PyStr.strip role
      = String c1 (String c2 (String c3 (String c4 (String c5 ""))))
      ∧ (c1 = "a" ∨ c1 = "A")%char ∧ (c2 = "d" ∨ c2 = "D")%char
      ∧ (c3 = "m" ∨ c3 = "M")%char ∧ (c4 = "i" ∨ c4 = "I")%char
      ∧ (c5 = "n" ∨ c5 = "N")%char.
Proof.
  unfold normalize. generalize (PyStr.strip role). intros t. split.
  - destruct t as [|c1 [|c2 [|c3 [|c4 [|c5 [|c6 t]]]]]];
      rewrite ?lower_String; try discriminate.
    intros H. injection H as H1 H2 H3 H4 H5.
    exists c1, c2, c3, c4, c5. split; [done|].
    by rewrite <- lower_char_a, <- lower_char_d, <- lower_char_m,
      <- lower_char_i, <- lower_char_n.
  - intros (c1 & c2 & c3 & c4 & c5 & -> & H1 & H2 & H3 & H4 & H5).
    rewrite !lower_String.
    apply lower_char_a in H1. apply lower_char_d in H2.
    apply lower_char_m in H3. apply lower_char_i in H4.
    apply lower_char_n in H5. by rewrite H1, H2, H3, H4, H5.
Qed.

Lemma normalize_char_not_admin c :
  normalize (String c "") ≠ "admin".
Proof. destruct c as [[] [] [] [] [] [] [] []]; vm_compute; discriminate. Qed.

Lemma no_admin_among_chars s :
  existsb (λ r, bool_decide (normalize r = "admin")) (PyStr.chars s)
  = false.
Proof.
  unfold PyStr.chars. induction (list_ascii_of_string s) as [|c l IH]; [done|].
  cbn [map existsb]. rewrite IH, orb_false_r.
  apply bool_decide_eq_false, normalize_char_not_admin.
Qed.

(** X3. When the token carries the roles as one string instead of a
    list, the loop runs over its characters: the call returns one role
    per character and never the superuser flag, whatever the string. *)
Theorem get_user_details_string_roles cfg id_token response s :
  select_roles cfg id_token = Ok (JStr s) →
  ∃ d, get_user_details cfg id_token response = Ok d
       ∧ roles d = normalize <$> PyStr.chars s
       ∧ is_superuser d = false ∧ is_staff d = false.
Proof.
  intros Hsel. unfold get_user_details. rewrite Hsel. cbn.
  change (map JStr (PyStr.chars s)) with (JStr <$> PyStr.chars s).
  rewrite any_admin_strings, group_roles_strings. cbn.
  eexists. split; [reflexivity|]. cbn.
  by rewrite no_admin_among_chars.
Qed.

Lemma get_user_details_string_roles_witness :
  ∃ d, get_user_details Samples.realm_settings
         [("realm_access", JObj [("roles", JStr "Admin")])] [] = Ok d
       ∧ roles d = ["a"; "d"; "m"; "i"; "n"]
       ∧ is_superuser d = false ∧ is_staff d = false.
Proof.
  apply (get_user_details_string_roles Samples.realm_settings
           [("realm_access", JObj [("roles", JStr "Admin")])] [] "Admin").
  reflexivity.
Defined.

End AdminRole.

(** ** User details on any token *)

Section UserDetailsAnyToken.

Implicit Types (cfg : Settings) (id_token response : pydict)
  (items : list json).

(** What a returned record is made of. *)
Lemma get_user_details_inv cfg id_token response d :
  get_user_details cfg id_token response = Ok d →
  ∃ v items b names,
    select_roles cfg id_token = Ok v
    ∧ Py.iter v = Ok items
    ∧ any_admin items = Ok b
    ∧ group_roles items = Ok names
    ∧ is_superuser d = b ∧ is_staff d = b ∧ roles d = names
    ∧ username d = Py.dict_get response (username_key cfg) JNull
    ∧ email d = Py.or (Py.dict_get response "email" JNull) (JStr "")
    ∧ fullname d = Py.or (Py.dict_get response "name" JNull) (JStr "")
    ∧ first_name d
      = Py.or (Py.dict_get response "given_name" JNull) (JStr "")
    ∧ last_name d
      = Py.or (Py.dict_get response "family_name" JNull) (JStr "").
Proof.
  unfold get_user_details.
  destruct (select_roles cfg id_token) as [v|]; [|done]. cbn.
  destruct (Py.iter v) as [items|] eqn:Hitems; [|done]. cbn.
  destruct (any_admin items) as [b|] eqn:Hany; [|done]. cbn.
  destruct (group_roles items) as [names|] eqn:Hnames; [|done]. cbn.
  intros [= <-]. exists v, items, b, names. by repeat split.
Qed.

Lemma group_roles_any_admin items names :
  group_roles items = Ok names →
  any_admin items = Ok (bool_decide ("admin" ∈ names)).
Proof.
  revert names. induction items as [|item items IH]; intros names.
  - by intros [= <-].
  - cbn. destruct (Py.strip_lower item) as [name|]; [|done]. cbn.
    fold (group_roles items).
    destruct (group_roles items) as [names'|]; [|done]. cbn.
    intros [= <-]. case_bool_decide as Hname.
    + f_equal. symmetry. apply bool_decide_eq_true. subst name.
      apply elem_of_cons. by left.
    + rewrite (IH names' eq_refl). f_equal. apply bool_decide_ext.
      rewrite elem_of_cons. split; [by right|].
      intros [Heq|Hin]; [congruence | done].
Qed.

Lemma group_roles_normal items names :
  group_roles items = Ok names → ∀ r, r ∈ names → normalize r = r.
Proof.
  revert names. induction items as [|item items IH]; intros names.
  - intros [= <-] r Hr. by apply elem_of_nil in Hr.
  - cbn. destruct item as [| | |s| |]; try done. cbn.
    fold (group_roles items).
    destruct (group_roles items) as [names'|]; [|done]. cbn.
    intros [= <-] r Hr. apply elem_of_cons in Hr as [->|Hr].
    + apply normalize_fixed.
    + by apply (IH names').
Qed.

(** X4. Whatever the token holds, when [get_user_details] returns, the
    two flags are equal and are true exactly when ["admin"] is among the
    returned roles, and every returned role is in normal form. *)
Theorem get_user_details_flags_match_roles cfg id_token response d :
  get_user_details cfg id_token response = Ok d →
  is_staff d = is_superuser d
  ∧ (is_superuser d = true ↔ "admin" ∈ roles d)
  ∧ ∀ r, r ∈ roles d → normalize r = r.
Proof.
  intros Hd. apply get_user_details_inv in Hd
    as (v & items & b & names & _ & _ & Hany & Hnames & Hsu & Hst & Hr & _).
  rewrite (group_roles_any_admin _ _ Hnames) in Hany.
  injection Hany as <-. rewrite Hsu, Hst, Hr. split; [done|]. split.
  - apply bool_decide_eq_true.
  - by apply (group_roles_normal items).
Qed.

Lemma get_user_details_flags_match_roles_witness :
  ∃ d, get_user_details Samples.realm_settings Samples.mixed_token
         Samples.userinfo = Ok d
       ∧ is_staff d = is_superuser d
       ∧ (is_superuser d = true ↔ "admin" ∈ roles d).
Proof.
  eexists. split; [reflexivity|].
  destruct (get_user_details_flags_match_roles Samples.realm_settings
              Samples.mixed_token Samples.userinfo _ eq_refl)
    as (Hstaff & Hsuper & _).
  split; [exact Hstaff | exact Hsuper].
Defined.

(** X5. The name and e-mail fields of a returned record are never
    [None]: a value that is absent, [None], empty or zero becomes the
    empty string, and any other value is passed on as it is. The
    username is whatever the response holds under the username key. *)
Theorem get_user_details_fields_not_none cfg id_token response d :
  get_user_details cfg id_token response = Ok d →
  (email d ≠ JNull ∧ fullname d ≠ JNull
   ∧ first_name d ≠ JNull ∧ last_name d ≠ JNull)
  ∧ (∀ v, Py.lookup "email" response = Some v →
          email d = if Py.truthy v then v else JStr "")
  ∧ (∀ v, Py.lookup "name" response = Some v →
          fullname d = if Py.truthy v then v else JStr "")
  ∧ (∀ v, Py.lookup "given_name" response = Some v →
          first_name d = if Py.truthy v then v else JStr "")
  ∧ (∀ v, Py.lookup "family_name" response = Some v →
          last_name d = if Py.truthy v then v else JStr "")
  ∧ (∀ v, Py.lookup (username_key cfg) response = Some v → username d = v).
Proof.
  intros Hd. apply get_user_details_inv in Hd
    as (_ & _ & _ & _ & _ & _ & _ & _ & _ & _ & _
        & Hu & He & Hf & Hg & Hl).
  assert (Hor : ∀ v, Py.or v (JStr "") ≠ JNull).
  { intros v. unfold Py.or. destruct (Py.truthy v) eqn:Hv; [|done].
    by destruct v. }
  rewrite Hu, He, Hf, Hg, Hl. split; [by repeat split|].
  repeat split; intros v Hv; by rewrite (dict_get_present _ _ _ _ Hv).
Qed.

Lemma get_user_details_fields_not_none_witness :
  ∃ d, get_user_details Samples.realm_settings Samples.realm_token
         [("email", JNull); ("name", JNum 7)] = Ok d
       ∧ email d = JStr "" ∧ fullname d = JNum 7.
Proof.
  eexists. split; [reflexivity|].
  destruct (get_user_details_fields_not_none Samples.realm_settings
              Samples.realm_token [("email", JNull); ("name", JNum 7)]
              _ eq_refl)
    as (_ & Hemail & Hname & _).
  split; [exact (Hemail JNull eq_refl) | exact (Hname (JNum 7) eq_refl)].
Defined.

End UserDetailsAnyToken.

(** ** What makes [get_user_details] raise *)

Section UserDetailsErrors.

Implicit Types (cfg : Settings) (id_token response : pydict)
  (items : list json).

Lemma any_admin_result items :
  (∃ b, any_admin items = Ok b) ∨ any_admin items = Raise AttributeError.
Proof.
  induction items as [|item items IH]; [left; by eexists|].
  cbn. destruct item as [| | |s| |]; cbn; try by right.
  case_bool_decide; [left; by eexists | exact IH].
Qed.

Lemma group_roles_non_string items x :
  x ∈ items → (∀ s, x ≠ JStr s) →
  group_roles items = Raise AttributeError.
Proof.
  intros Hx Hns. induction items as [|item items IH].
  - by apply elem_of_nil in Hx.
  - cbn. destruct item as [| | |s| |]; cbn; try done.
    fold (group_roles items).
    apply elem_of_cons in Hx as [->|Hx]; [by destruct (Hns s)|].
    by rewrite (IH Hx).
Qed.

(** X6. A role list that cannot be iterated ([None], a number, a
    boolean) makes [get_user_details] raise [TypeError]; a list that
    holds anything but strings makes it raise [AttributeError], also
    when an ["admin"] role stands before the offending item. No partial
    record is returned. *)
Theorem get_user_details_bad_roles cfg id_token response :
  (∀ v, select_roles cfg id_token = Ok v →
        v = JNull ∨ (∃ b, v = JBool b) ∨ (∃ z, v = JNum z) →
        get_user_details cfg id_token response = Raise TypeError)
  ∧ (∀ items x, select_roles cfg id_token = Ok (JArr items) →
        x ∈ items → (∀ s, x ≠ JStr s) →
        get_user_details cfg id_token response = Raise AttributeError).
Proof.
  split.
  - intros v Hsel Hv. unfold get_user_details. rewrite Hsel.
    by destruct Hv as [-> | [[b ->] | [z ->]]].
  - intros items x Hsel Hx Hns. unfold get_user_details. rewrite Hsel. cbn.
    rewrite (group_roles_non_string items x Hx Hns).
    by destruct (any_admin_result items) as [[b ->] | ->].
Qed.

Lemma get_user_details_bad_roles_witness :
  get_user_details Samples.realm_settings
    [("realm_access", JObj [("roles", JNull)])] [] = Raise TypeError
  ∧ get_user_details Samples.realm_settings
      [("realm_access", JObj [("roles", JArr [JStr "admin"; JNum 3])])] []
    = Raise AttributeError.
Proof.
  split.
  - apply (proj1 (get_user_details_bad_roles Samples.realm_settings
                    [("realm_access", JObj [("roles", JNull)])] []) JNull).
    + reflexivity.
    + by left.
  - apply (proj2 (get_user_details_bad_roles Samples.realm_settings
             [("realm_access", JObj [("roles", JArr [JStr "admin"; JNum 3])])]
             []) [JStr "admin"; JNum 3] (JNum 3)).
    + reflexivity.
    + apply elem_of_cons. right. apply elem_of_cons. by left.
    + intros s. discriminate.
Defined.

(** X7. A key on the role path that is present with a value that is not
    an object makes [get_user_details] raise [AttributeError]: the empty
    default stands in only for an absent key. *)
Theorem get_user_details_bad_path cfg id_token response :
  (global_role cfg = true →
     ∀ v, Py.lookup "realm_access" id_token = Some v →
          (∀ d, v ≠ JObj d) →
          get_user_details cfg id_token response = Raise AttributeError)
  ∧ (global_role cfg = false →
     (∀ v, Py.lookup "resource_access" id_token = Some v →
           (∀ d, v ≠ JObj d) →
           get_user_details cfg id_token response = Raise AttributeError)
     ∧ (∀ resources v,
           Py.lookup "resource_access" id_token = Some (JObj resources) →
           Py.lookup (client_id cfg) resources = Some v →
           (∀ d, v ≠ JObj d) →
           get_user_details cfg id_token response = Raise AttributeError)).
Proof.
  assert (Hget : ∀ v k default, (∀ d, v ≠ JObj d) →
                   Py.get v k default = Raise AttributeError).
  { intros v k default Hv. destruct v; try done. by destruct (Hv kvs). }
  split; intros Hglobal; [|split].
  - intros v Hrealm Hv. unfold get_user_details, select_roles.
    rewrite Hglobal, (dict_get_present _ _ _ _ Hrealm).
    by rewrite (Hget _ _ _ Hv).
  - intros v Hres Hv. unfold get_user_details, select_roles.
    rewrite Hglobal, (dict_get_present _ _ _ _ Hres).
    by rewrite (Hget _ _ _ Hv).
  - intros resources v Hres Hentry Hv. unfold get_user_details, select_roles.
    rewrite Hglobal, (dict_get_present _ _ _ _ Hres). cbn.
    rewrite (dict_get_present _ _ _ _ Hentry).
    by rewrite (Hget _ _ _ Hv).
Qed.

Lemma get_user_details_bad_path_witness :
  get_user_details Samples.client_settings
    [("resource_access", JObj [("app1", JArr [JStr "admin"])])] []
  = Raise AttributeError.
Proof.
  apply (proj2 (proj2 (get_user_details_bad_path Samples.client_settings
           [("resource_access", JObj [("app1", JArr [JStr "admin"])])] [])
           eq_refl)
         [("app1", JArr [JStr "admin"])] (JArr [JStr "admin"]));
    [reflexivity | reflexivity | intros d; discriminate].
Defined.

End UserDetailsErrors.

(** ** What the roles and the identity fields depend on *)

Section UserDetailsDependencies.

Implicit Types (cfg : Settings) (id_token response : pydict).

(** X8. The roles and the two flags are decided by the id token alone:
    two calls that differ only in the userinfo response both raise the
    same exception or both return, with the same roles and flags. The
    userinfo response cannot make a superuser. *)
Theorem get_user_details_roles_from_token cfg id_token response1 response2 :
  match get_user_details cfg id_token response1,
        get_user_details cfg id_token response2 with
  | Ok d1, Ok d2 =>
      roles d1 = roles d2
      ∧ is_superuser d1 = is_superuser d2
      ∧ is_staff d1 = is_staff d2
  | Raise e1, Raise e2 => e1 = e2
  | _, _ => False
  end.
Proof.
  unfold get_user_details.
  destruct (select_roles cfg id_token) as [v|]; [|done]. cbn.
  destruct (Py.iter v) as [items|]; [|done]. cbn.
  destruct (any_admin items) as [b|]; [|done]. cbn.
  by destruct (group_roles items) as [names|].
Qed.

(** X9. Only the configured source is read. With the global-role
    setting off, tokens that agree on [resource_access] give the same
    result, whatever [realm_access] holds; with the setting on, tokens
    that agree on [realm_access] give the same result. *)
Theorem get_user_details_one_source cfg id_token1 id_token2 response :
  (global_role cfg = false →
     Py.lookup "resource_access" id_token1
     = Py.lookup "resource_access" id_token2 →
     get_user_details cfg id_token1 response
     = get_user_details cfg id_token2 response)
  ∧ (global_role cfg = true →
     Py.lookup "realm_access" id_token1
     = Py.lookup "realm_access" id_token2 →
     get_user_details cfg id_token1 response
     = get_user_details cfg id_token2 response).
Proof.
  split; intros Hglobal Hsame;
    unfold get_user_details, select_roles, Py.dict_get;
    by rewrite Hglobal, Hsame.
Qed.

Lemma get_user_details_one_source_witness :
  get_user_details Samples.client_settings Samples.realm_token
    Samples.userinfo
  = get_user_details Samples.client_settings [] Samples.userinfo.
Proof.
  apply (proj1 (get_user_details_one_source Samples.client_settings
                  Samples.realm_token [] Samples.userinfo));
    reflexivity.
Defined.

End UserDetailsDependencies.

(** ** The extra authorization arguments *)

Section ExtraArguments.

(** X10. The arguments [auth_extra_arguments] returns always hold
    [kc_locale] with the current language, replacing a value the parent
    class may have put there; every other argument of the parent is
    passed on unchanged, and when the parent returns [None] the locale is
    the only argument. *)
Theorem auth_extra_arguments_locale parent language :
  auth_extra_arguments parent language !! "kc_locale"
  = Some (key_value language)
  ∧ (∀ k, k ≠ "kc_locale" →
          auth_extra_arguments parent language !! k
          = default ∅ parent !! k)
  ∧ dom (auth_extra_arguments parent language)
    = {["kc_locale"]} ∪ dom (default ∅ parent)
  ∧ (parent = None →
     auth_extra_arguments parent language
     = {["kc_locale" := key_value language]}).
Proof.
  unfold auth_extra_arguments. split; [apply lookup_insert_eq|].
  split; [intros k Hk; by apply lookup_insert_ne|].
  split; [apply dom_insert_L|]. by intros ->.
Qed.

Lemma auth_extra_arguments_locale_witness :
  auth_extra_arguments (Some {["prompt" := JStr "login"]}) (Some "es")
    !! "prompt"
  = Some (JStr "login")
  ∧ auth_extra_arguments None (Some "es") = {["kc_locale" := JStr "es"]}.
Proof.
  destruct (auth_extra_arguments_locale
              (Some {["prompt" := JStr "login"]}) (Some "es"))
    as (_ & Hother & _).
  destruct (auth_extra_arguments_locale None (Some "es"))
    as (_ & _ & _ & Hnone).
  split.
  - rewrite (Hother "prompt"); [|discriminate]. apply lookup_singleton_eq.
  - exact (Hnone eq_refl).
Defined.

End ExtraArguments.

(** ** The session across [auth_complete_params] *)

Section SessionFrame.

Variable new_session_key : gset string → string.

Implicit Types (s : Session) (params : gmap string json).

(** X11. [auth_complete_params] adds or replaces one parameter and
    nothing else: every other parameter of the parent class is returned
    unchanged, and the data held in the session survives the rotation of
    its key. *)
Theorem auth_complete_params_frame params s :
  let r := auth_complete_params new_session_key params s in
  (∀ k, k ≠ "client_session_state" → fst r !! k = params !! k)
  ∧ dom (fst r) = {["client_session_state"]} ∪ dom params
  ∧ session_data (snd r) = session_data s.
Proof.
  cbn zeta. split; [intros k Hk; by apply lookup_insert_ne|].
  split; [apply dom_insert_L|].
  unfold auth_complete_params, cycle_key. cbn.
  by destruct (cycle_key_attr s).
Qed.

(** X12. On a session object that still has the framework's
    [cycle_key] and whose key exists in the storage, the call retires
    the old identifier: afterwards it is gone from the storage, the new
    one is there, and every other stored session is untouched. *)
Theorem auth_complete_params_retires_old_key params s old :
  (∀ keys, new_session_key keys ∉ keys) →
  cycle_key_attr s = CycleKeyDefault →
  session_key s = Some old →
  old ∈ storage s →
  let r := auth_complete_params new_session_key params s in
  (old ∉ storage (snd r))
  ∧ new_session_key (storage s) ∈ storage (snd r)
  ∧ ∀ k, k ≠ old → k ≠ new_session_key (storage s) →
         (k ∈ storage (snd r) ↔ k ∈ storage s).
Proof.
  intros Hfresh Hattr Hkey Hold. cbn zeta.
  unfold auth_complete_params, cycle_key. rewrite Hattr. cbn. rewrite Hkey.
  assert (Hne : old ≠ new_session_key (storage s)).
  { intros ->. by apply (Hfresh (storage s)). }
  split; [|split].
  - rewrite elem_of_difference, elem_of_singleton. tauto.
  - rewrite elem_of_difference, elem_of_union, !elem_of_singleton.
    split; [by left | congruence].
  - intros k Hk Hk'.
    rewrite elem_of_difference, elem_of_union, !elem_of_singleton. tauto.
Qed.

Lemma default_cycle_key_stored s :
  (∀ keys, new_session_key keys ∉ keys) →
  key_stored s → key_stored (default_cycle_key new_session_key s).
Proof.
  intros Hfresh Hs k. cbn. intros [= <-].
  destruct (session_key s) as [old|] eqn:Hold.
  - rewrite elem_of_difference, elem_of_union, !elem_of_singleton.
    split; [by left|]. intros Heq. apply (Hfresh (storage s)).
    rewrite Heq. by apply Hs.
  - rewrite elem_of_union, elem_of_singleton. by left.
Qed.

Lemma cycle_key_stored s :
  (∀ keys, new_session_key keys ∉ keys) →
  key_stored s → key_stored (cycle_key new_session_key s).
Proof.
  intros Hfresh Hs. unfold cycle_key.
  destruct (cycle_key_attr s); [by apply default_cycle_key_stored | done].
Qed.

Lemma step_key_stored s c :
  (∀ keys, new_session_key keys ∉ keys) →
  key_stored s → key_stored (step new_session_key s c).
Proof.
  intros Hfresh Hs. destruct c; cbn [step].
  - by apply cycle_key_stored.
  - unfold flush. destruct (flush_attr s); [|done]. by intros k.
  - done.
  - done.
  - by apply (cycle_key_stored s).
Qed.

Lemma key_value_str key k : key_value key = JStr k → key = Some k.
Proof. destruct key; cbn; [by intros [= ->] | done]. Qed.

Lemma run_key_stored s cs :
  (∀ keys, new_session_key keys ∉ keys) →
  key_stored s →
  key_stored (run new_session_key s cs).
Proof.
  intros Hfresh. revert s. induction cs as [|c cs IH]; intros s Hs; [done|].
  apply (IH (step new_session_key s c)). by apply step_key_stored.
Qed.

(** X13. Through a whole request, with any calls of the framework and of
    [auth_complete_params] before and after, the key of the session
    object exists in the storage when it did at the start, and the
    identifier a call of [auth_complete_params] returns under
    [client_session_state] names a stored session: it is in the storage
    when the call returns, and it is still the session's key and still
    in the storage after whatever the request does next. On a session
    object that has the framework's [cycle_key] the call does return an
    identifier. *)
Theorem session_key_stays_stored s cs1 params cs2 :
  (∀ keys, new_session_key keys ∉ keys) →
  key_stored s →
  let s1 := run new_session_key s cs1 in
  let r := auth_complete_params new_session_key params s1 in
  let s2 := run new_session_key (snd r) cs2 in
  key_stored s1
  ∧ key_stored s2
  ∧ (∀ k, fst r !! "client_session_state" = Some (JStr k) →
          k ∈ storage (snd r) ∧ session_key s2 = Some k ∧ k ∈ storage s2)
  ∧ (cycle_key_attr s1 = CycleKeyDefault →
     ∃ k, fst r !! "client_session_state" = Some (JStr k)).
Proof.
  intros Hfresh Hs s1 r s2.
  assert (Hs1 : key_stored s1) by (by apply run_key_stored).
  assert (Hr : key_stored (snd r))
    by (by apply (step_key_stored s1 (CallAuthCompleteParams params))).
  assert (Hs2 : key_stored s2) by (by apply run_key_stored).
  assert (Hkeep : session_key s2 = session_key (snd r)
                  ∧ storage s2 = storage (snd r)).
  { by destruct (run_locked new_session_key (snd r) cs2
                   (acp_locked new_session_key params s1))
      as (_ & Hkey & Hsto). }
  destruct Hkeep as [Hkey Hsto].
  assert (Hparam : fst r !! "client_session_state"
                   = Some (key_value (session_key (snd r))))
    by apply acp_param.
  split; [done|]. split; [done|]. split.
  - intros k Hk. rewrite Hparam in Hk. injection Hk as Hk.
    assert (Hsk : session_key (snd r) = Some k)
      by (by apply key_value_str).
    split; [by apply Hr|]. split; [by rewrite Hkey|].
    rewrite Hsto. by apply Hr.
  - intros Hattr. exists (new_session_key (storage s1)).
    rewrite Hparam. unfold r, auth_complete_params, cycle_key.
    by rewrite Hattr.
Qed.

End SessionFrame.

Lemma auth_complete_params_frame_witness :
  fst (auth_complete_params Samples.new_key Samples.base_params
         Samples.session0) !! "grant_type"
  = Some (JStr "authorization_code").
Proof.
  destruct (auth_complete_params_frame Samples.new_key Samples.base_params
              Samples.session0)
    as (Hother & _).
  rewrite (Hother "grant_type"); [|discriminate]. apply lookup_singleton_eq.
Defined.

Lemma sample_session_stored : key_stored Samples.session0.
Proof.
  intros k [= <-]. change ("k0" ∈ ({["k0"]} : gset string)).
  by apply elem_of_singleton.
Qed.

Lemma auth_complete_params_retires_old_key_witness :
  let r := auth_complete_params Samples.new_key Samples.base_params
             Samples.session0 in
  ("k0" ∉ storage (snd r)) ∧ Samples.new_key {["k0"]} ∈ storage (snd r).
Proof.
  destruct (auth_complete_params_retires_old_key Samples.new_key
              Samples.base_params Samples.session0 "k0"
              (λ keys, is_fresh keys) eq_refl eq_refl
              (proj2 (elem_of_singleton "k0" "k0") eq_refl))
    as (Hold & Hnew & _).
  split; [exact Hold | exact Hnew].
Defined.

Lemma session_key_stays_stored_witness :
  let r := auth_complete_params Samples.new_key Samples.base_params
             (run Samples.new_key Samples.session0
                [SetItem "user" (JStr "ada")]) in
  let s2 := run Samples.new_key (snd r) [CallCycleKey; CallFlush] in
  ∃ k, fst r !! "client_session_state" = Some (JStr k)
       ∧ session_key s2 = Some k ∧ k ∈ storage s2.
Proof.
  destruct (session_key_stays_stored Samples.new_key Samples.session0
              [SetItem "user" (JStr "ada")] Samples.base_params
              [CallCycleKey; CallFlush]
              (λ keys, is_fresh keys) sample_session_stored)
    as (_ & _ & Hsent & Hsome).
  destruct (Hsome eq_refl) as [k Hk].
  exists k. split; [exact Hk|].
  destruct (Hsent k Hk) as (_ & Hkey & Hin).
  split; [exact Hkey | exact Hin].
Defined.

(** ** The synchronizer on any stored roles *)

Section SynchronizerAnyInput.

Implicit Types (items : list json) (db : DB) (instance : User).

Lemma get_or_create_grows name db g created db' :
  get_or_create name db = Ok (g, created, db') →
  (∃ extra, auth_group db' = auth_group db ++ extra)
  ∧ user_groups db' = user_groups db
  ∧ g ∈ auth_group db'.
Proof.
  unfold get_or_create.
  destruct (filter _ (auth_group db)) as [|g0 [|g1 l]] eqn:Hf; [| |done].
  - intros [= <- <- <-]. cbn. split; [by eexists|]. split; [done|].
    apply elem_of_app. right. by apply list_elem_of_singleton.
  - intros [= <- <- <-]. split; [exists []; by rewrite app_nil_r|].
    split; [done|].
    assert (Hg : g0 ∈ filter (λ g, group_name g = name) (auth_group db))
      by (rewrite Hf; apply elem_of_cons; by left).
    by apply list_elem_of_filter in Hg as [_ Hg].
Qed.

Lemma add_roles_grows items db db' :
  add_roles items db = Ok db' →
  (∃ extra, auth_group db' = auth_group db ++ extra)
  ∧ (groups_exist db → groups_exist db').
Proof.
  revert db. induction items as [|item items IH]; intros db.
  - intros [= <-]. split; [exists []; by rewrite app_nil_r | done].
  - cbn. destruct (Py.strip_lower item) as [name|]; [|done]. cbn.
    destruct (get_or_create name db) as [[[g created] db1]|] eqn:Hget;
      [|done].
    cbn. intros Hrun.
    destruct (get_or_create_grows _ _ _ _ _ Hget)
      as ((extra1 & Htab1) & Hug1 & Hg).
    destruct (IH _ Hrun) as ((extra' & Htab') & Hexist).
    cbn in Htab'. split.
    + exists (extra1 ++ extra'). by rewrite Htab', Htab1, app_assoc.
    + intros Hdb. apply Hexist. intros i. cbn.
      rewrite elem_of_union, elem_of_singleton, Hug1.
      intros [-> | Hi]; [by exists g|].
      destruct (Hdb i Hi) as (g' & Hg' & Hid). exists g'. split; [|done].
      rewrite Htab1. apply elem_of_app. by left.
Qed.

(** X14. Whatever the stored roles are, when [add_user_groups] returns,
    no group row has been deleted, renamed or reordered: the table is
    the old one with the created rows appended. For a user with a
    linked identity every membership points to a row of the table. *)
Theorem add_user_groups_keeps_groups instance db db' :
  add_user_groups instance db = Ok db' →
  (∃ extra, auth_group db' = auth_group db ++ extra)
  ∧ (social_auth instance ≠ [] → groups_exist db').
Proof.
  unfold add_user_groups.
  destruct (social_auth instance) as [|social rest].
  { intros [= <-]. split; [exists []; by rewrite app_nil_r | done]. }
  assert (Hclear : groups_exist (groups_clear db)).
  { intros i Hi. by apply elem_of_empty in Hi. }
  destruct (Py.lookup "roles" (extra_data social)) as [v|].
  - destruct (Py.iter v) as [items|]; [|done]. cbn. intros Hrun.
    destruct (add_roles_grows _ _ _ Hrun) as (Htab & Hexist).
    split; [done|]. intros _. by apply Hexist.
  - intros [= <-]. split; [exists []; by rewrite app_nil_r | done].
Qed.

Lemma add_user_groups_keeps_groups_witness :
  ∃ db' extra,
    add_user_groups Samples.user0 Samples.groups0 = Ok db'
    ∧ auth_group db' = auth_group Samples.groups0 ++ extra.
Proof.
  eexists.
  destruct (add_user_groups_keeps_groups Samples.user0 Samples.groups0
              _ eq_refl) as ((extra & Htab) & _).
  exists extra. split; [reflexivity | exact Htab].
Defined.

Lemma add_roles_app items1 items2 db :
  add_roles (items1 ++ items2) db
  = add_roles items1 db ≫= add_roles items2.
Proof.
  revert db. induction items1 as [|item items1 IH]; intros db; [done|].
  cbn. destruct (Py.strip_lower item) as [name|]; [|done]. cbn.
  destruct (get_or_create name db) as [[[g created] db1]|]; [|done].
  cbn. apply IH.
Qed.

(** X15. Stored roles that cannot be iterated make [add_user_groups]
    raise [TypeError]; a list of roles with an item that is not a string
    after some strings makes it raise [AttributeError], on a table that
    meets its constraints. *)
Theorem add_user_groups_bad_roles instance social rest db :
  social_auth instance = social :: rest →
  (∀ v, Py.lookup "roles" (extra_data social) = Some v →
        v = JNull ∨ (∃ b, v = JBool b) ∨ (∃ z, v = JNum z) →
        add_user_groups instance db = Raise TypeError)
  ∧ (∀ rs x tail,
        Py.lookup "roles" (extra_data social)
        = Some (JArr ((JStr <$> rs) ++ x :: tail)) →
        (∀ s, x ≠ JStr s) →
        table_ok (auth_group db) →
        add_user_groups instance db = Raise AttributeError).
Proof.
  intros Hsocial. unfold add_user_groups. rewrite Hsocial. split.
  - intros v -> Hv. by destruct Hv as [-> | [[b ->] | [z ->]]].
  - intros rs x tail -> Hx Hok. cbn. rewrite add_roles_app.
    destruct (add_roles_strings rs (groups_clear db) Hok)
      as (db1 & _ & -> & _).
    cbn. destruct x as [| | |s| |]; try done. by destruct (Hx s).
Qed.

Lemma add_user_groups_bad_roles_witness :
  add_user_groups {| social_auth := [Samples.null_roles] |} Samples.groups0
  = Raise TypeError
  ∧ add_user_groups {| social_auth := [Samples.mixed_roles] |}
      Samples.groups0
    = Raise AttributeError.
Proof.
  split.
  - apply (proj1 (add_user_groups_bad_roles
                    {| social_auth := [Samples.null_roles] |}
                    Samples.null_roles [] Samples.groups0 eq_refl)
             JNull eq_refl).
    by left.
  - apply (proj2 (add_user_groups_bad_roles
                    {| social_auth := [Samples.mixed_roles] |}
                    Samples.mixed_roles [] Samples.groups0 eq_refl)
             ["admin"] (JNum 3) [] eq_refl).
    + intros s. discriminate.
    + exact sample_table_ok.
Defined.

End SynchronizerAnyInput.

(** ** From the token to the groups *)

Section TokenToGroups.

Implicit Types (rs : list string) (db : DB) (instance : User).

(** X16. The names of the groups a user ends in depend only on the set
    of stripped and lowercased roles: not on the order of the roles, on
    repeated roles, on their case or surrounding whitespace, on the
    groups the user was in before, or on which rows the table already
    had. *)
Theorem add_user_groups_same_role_set
    instance1 social1 rest1 rs1 db1 instance2 social2 rest2 rs2 db2 :
  social_auth instance1 = social1 :: rest1 →
  Py.lookup "roles" (extra_data social1) = Some (JArr (JStr <$> rs1)) →
  table_ok (auth_group db1) →
  social_auth instance2 = social2 :: rest2 →
  Py.lookup "roles" (extra_data social2) = Some (JArr (JStr <$> rs2)) →
  table_ok (auth_group db2) →
  (∀ n, n ∈ normalize <$> rs1 ↔ n ∈ normalize <$> rs2) →
  ∃ db1' db2',
    add_user_groups instance1 db1 = Ok db1'
    ∧ add_user_groups instance2 db2 = Ok db2'
    ∧ group_names db1' = group_names db2'.
Proof.
  intros Hs1 Hr1 Hok1 Hs2 Hr2 Hok2 Hsame.
  destruct (add_user_groups_strings _ _ _ _ db1 Hs1 (or_introl Hr1) Hok1)
    as (db1' & _ & Hrun1 & _ & Hok1' & _ & Hall1 & Hug1).
  destruct (add_user_groups_strings _ _ _ _ db2 Hs2 (or_introl Hr2) Hok2)
    as (db2' & _ & Hrun2 & _ & Hok2' & _ & Hall2 & Hug2).
  exists db1', db2'. split; [done|]. split; [done|].
  rewrite (group_names_ids_named db1' _ Hok1' Hall1 Hug1).
  rewrite (group_names_ids_named db2' _ Hok2' Hall2 Hug2).
  apply set_eq. intros n. by rewrite !elem_of_list_to_set.
Qed.

Lemma add_user_groups_same_role_set_witness :
  ∃ db1' db2',
    add_user_groups Samples.user0 Samples.groups0 = Ok db1'
    ∧ add_user_groups Samples.user1 Samples.no_groups = Ok db2'
    ∧ group_names db1' = group_names db2'.
Proof.
  apply (add_user_groups_same_role_set
           Samples.user0 Samples.social0 [] Samples.roles0 Samples.groups0
           Samples.user1 Samples.social1 [] Samples.roles1 Samples.no_groups
           eq_refl eq_refl sample_table_ok eq_refl eq_refl).
  - split; cbn; apply NoDup_nil_2.
  - intros n. cbn. rewrite !elem_of_cons, !elem_of_nil. tauto.
Defined.

Lemma fmap_fixed {A} (f : A → A) (l : list A) :
  (∀ x, x ∈ l → f x = x) → f <$> l = l.
Proof.
  induction l as [|a l IH]; intros Hf; [done|]. cbn. f_equal.
  - apply Hf, elem_of_cons. by left.
  - apply IH. intros x Hx. apply Hf, elem_of_cons. by right.
Qed.

(** X17. When the roles that [get_user_details] returned are what the
    linked identity stores, the synchronizer puts the user in exactly the
    groups named by these roles, and the user is in the group ["admin"]
    exactly when [get_user_details] set the superuser flag. *)
Theorem roles_become_groups
    cfg (id_token response : pydict) d instance social rest db :
  get_user_details cfg id_token response = Ok d →
  social_auth instance = social :: rest →
  Py.lookup "roles" (extra_data social) = Some (JArr (JStr <$> roles d)) →
  table_ok (auth_group db) →
  ∃ db',
    add_user_groups instance db = Ok db'
    ∧ group_names db' = list_to_set (roles d)
    ∧ (is_superuser d = true ↔ "admin" ∈ group_names db').
Proof.
  intros Hd Hsocial Hroles Hok.
  apply get_user_details_inv in Hd
    as (v & items & b & names & _ & _ & Hany & Hnames & Hsu & _ & Hr & _).
  rewrite (group_roles_any_admin _ _ Hnames) in Hany. injection Hany as <-.
  destruct (add_user_groups_strings _ _ _ _ db Hsocial (or_introl Hroles) Hok)
    as (db' & _ & Hrun & _ & Hok' & _ & Hall & Hug).
  pose proof (group_names_ids_named db' _ Hok' Hall Hug) as Hgn.
  rewrite (fmap_fixed normalize (roles d)) in Hgn
    by (rewrite Hr; by apply (group_roles_normal items)).
  exists db'. split; [done|]. split; [done|].
  rewrite Hgn, elem_of_list_to_set, Hsu, Hr. apply bool_decide_eq_true.
Qed.

Lemma roles_become_groups_witness :
  ∃ db',
    add_user_groups Samples.user2 Samples.groups0 = Ok db'
    ∧ group_names db' = list_to_set ["admin"; "editor"; "admin"]
    ∧ "admin" ∈ group_names db'.
Proof.
  destruct (roles_become_groups Samples.realm_settings Samples.roles0_token
              Samples.userinfo _ Samples.user2 Samples.social2 []
              Samples.groups0 eq_refl eq_refl eq_refl sample_table_ok)
    as (db' & Hrun & Hnames & Hadmin).
  exists db'. split; [exact Hrun|]. split; [exact Hnames|].
  apply Hadmin. reflexivity.
Defined.

End TokenToGroups.

(** ** Decoding the token *)

Section ParseIncomingDataFacts.

Variable find_valid_key : string → json.
Variable construct_pem : json → result string.

(** X18. [parse_incomming_data] reaches the library's decoder only with
    a key that is a dict holding [alg] and from which a PEM could be
    built; it then passes the token unchanged, that PEM and that
    algorithm. When no key was found, or the key has no [alg], or no
    PEM could be built from it, the call raises and nothing is
    decoded. *)
Theorem parse_incomming_data_needs_key data :
  ((∀ d, find_valid_key data = JObj d → Py.lookup "alg" d = None) →
   ∃ e, ∀ jwt_decode,
     parse_incomming_data find_valid_key construct_pem jwt_decode data
     = Raise e)
  ∧ (∀ d alg pem jwt_decode,
       find_valid_key data = JObj d →
       Py.lookup "alg" d = Some alg →
       construct_pem (JObj d) = Ok pem →
       parse_incomming_data find_valid_key construct_pem jwt_decode data
       = jwt_decode data pem alg [("verify", JBool false)])
  ∧ (∀ e jwt_decode,
       construct_pem (find_valid_key data) = Raise e →
       parse_incomming_data find_valid_key construct_pem jwt_decode data
       = Raise e).
Proof.
  unfold parse_incomming_data. split; [|split]; [| |by intros e jwt_decode ->].
  - intros Hkey. destruct (construct_pem (find_valid_key data)) as [pem|e];
      [|by exists e].
    destruct (find_valid_key data) as [| | | | |d] eqn:Hfound;
      try by exists TypeError.
    exists KeyError. intros jwt_decode. cbn. by rewrite (Hkey d eq_refl).
  - intros d alg pem jwt_decode -> Halg ->. cbn. by rewrite Halg.
Qed.

End ParseIncomingDataFacts.

Lemma parse_incomming_data_needs_key_witness :
  ∃ e, ∀ jwt_decode,
    parse_incomming_data (λ _, JNull) (λ _, Ok "pem") jwt_decode
      "header.payload.signature"
    = Raise e.
Proof.
  apply (proj1 (parse_incomming_data_needs_key (λ _, JNull) (λ _, Ok "pem")
                  "header.payload.signature")).
  intros d Hd. discriminate Hd.
Defined.
